(** * Excel RAG system: the query pipeline, the tabular store and the providers

    A shallow embedding of [database.py], [rag_system.py] and
    [llm_providers.py].

    Conventions of the embedding.
    - A Python [str] is a list of characters ([str]); a character is an
      [ascii], read as the code point of that number (0..255).  Whitespace
      is what [str.isspace] accepts on that range.
    - A Python exception is a value of [exn]; code that can raise returns a
      [Result].
    - The language model, the SQL engine and the random generator are
      outside the program: they are oracles the definitions take as
      arguments, and every theorem holds for all of them. *)

From Stdlib Require Import String Ascii ZArith QArith.
From stdpp Require Import base list gmap strings.

Local Open Scope list_scope.
Local Open Scope nat_scope.

(** ** Python strings *)

Definition str : Type := list ascii.

(** A string literal of the source. *)
Definition lit (s : string) : str := list_ascii_of_string s.

(** [str.isspace] on the code points below 256: TAB..CR, FS..US, space,
    NEL (0x85) and NBSP (0xA0). *)
Definition isspace (c : ascii) : bool :=
  let n := nat_of_ascii c in
  ((9 <=? n) && (n <=? 13)) || ((28 <=? n) && (n <=? 31))
  || (n =? 32) || (n =? 133) || (n =? 160).

(** [s.lstrip()] *)
Fixpoint lstrip (s : str) : str :=
  match s with
  | [] => []
  | c :: s' => if isspace c then lstrip s' else s
  end.

(** [s.rstrip()] *)
Definition rstrip (s : str) : str := reverse (lstrip (reverse s)).

(** [s.strip()] *)
Definition strip (s : str) : str := rstrip (lstrip s).

(** [s.startswith(p)] *)
Fixpoint startswith (s p : str) {struct p} : bool :=
  match p, s with
  | [], _ => true
  | _ :: _, [] => false
  | a :: p', b :: s' => if Ascii.eqb a b then startswith s' p' else false
  end.

(** [s.endswith(p)] *)
Definition endswith (s p : str) : bool := startswith (reverse s) (reverse p).

(** [s[:-n]] for [n > 0] *)
Definition drop_last (n : nat) (s : str) : str := take (length s - n) s.

(** [needle in s] *)
Fixpoint contains (needle s : str) : bool :=
  startswith s needle
  || match s with
     | [] => false
     | _ :: s' => contains needle s'
     end.

(** ** The query sanitizer: [RAGSystem._clean_sql_query] *)

Definition fence : str := lit "```".
Definition fence_sql : str := lit "```sql".

Definition _clean_sql_query (sql_query : str) : str :=
  let sql_query := strip sql_query in
  let sql_query :=
    if startswith sql_query fence_sql then strip (drop 6 sql_query)
    else if startswith sql_query fence then strip (drop 3 sql_query)
    else sql_query in
  let sql_query :=
    if endswith sql_query fence then strip (drop_last 3 sql_query)
    else sql_query in
  sql_query.

(** ** Exceptions and results *)

(** The exceptions the program can see.  [External] stands for whatever a
    library outside the program raises (pandas' [DatabaseError], a
    transport error, ...); all of them derive from [Exception]. *)
Inductive exn : Type :=
  | IndexError (msg : str)
  | ValueError (msg : str)
  | AttributeError (msg : str)
  | External (cls msg : str).

(** [str(e)] *)
Definition str_exn (e : exn) : str :=
  match e with
  | IndexError m | ValueError m | AttributeError m | External _ m => m
  end.

Inductive Result (A : Type) : Type :=
  | Ok (a : A)
  | Raise (e : exn).
Arguments Ok {A} a.
Arguments Raise {A} e.

Definition is_ok {A} (r : Result A) : bool :=
  match r with Ok _ => true | Raise _ => false end.

(** ** Identifier derivation: [ExcelDatabase._clean_table_name] *)

Definition in_range (lo hi : nat) (c : ascii) : bool :=
  let n := nat_of_ascii c in (lo <=? n) && (n <=? hi).

(** The character class [[a-zA-Z0-9]] *)
Definition alnum (c : ascii) : bool :=
  in_range 97 122 c || in_range 65 90 c || in_range 48 57 c.

(** [re.sub(r'[^a-zA-Z0-9]', '_', name)] *)
Definition re_sub_non_alnum (name : str) : str :=
  map (fun c => if alnum c then c else "_"%char) name.

(** [c.isdigit()] on the code points below 256: the decimal digits and the
    superscripts 2, 3 and 1. *)
Definition isdigit (c : ascii) : bool :=
  let n := nat_of_ascii c in
  in_range 48 57 c || (n =? 178) || (n =? 179) || (n =? 185).

Definition _clean_table_name (name : str) : Result str :=
  let clean := re_sub_non_alnum name in
  match clean with
  | [] => Raise (IndexError (lit "string index out of range"))
  | c0 :: _ =>
      if isdigit c0 then Ok (lit "sheet_" ++ clean) else Ok clean
  end.

(** ** Tabular data *)

(** A cell of a frame; [Null] is what [dropna] drops (None, NaN, NaT). *)
Inductive Cell : Type :=
  | Null
  | IntCell (z : Z)
  | RealCell (q : Q)
  | TextCell (s : str)
  | TimeCell (ns : Z).

Definition notna (c : Cell) : bool :=
  match c with Null => false | _ => true end.

(** A column: its label, [str(dtype)] and its values. *)
Record Series : Type := {
  col_name : str;
  col_dtype : str;
  col_values : list Cell
}.

(** A [pandas.DataFrame]: the length of its index and its columns. *)
Record DataFrame : Type := {
  nrows : nat;
  df_columns : list Series
}.

Definition well_formed (df : DataFrame) : Prop :=
  Forall (fun s => length (col_values s) = nrows df) (df_columns df).

(** [df.empty]: some axis has length 0 *)
Definition df_empty (df : DataFrame) : bool :=
  (nrows df =? 0) || (length (df_columns df) =? 0).

(** [list(df.columns)] *)
Definition column_labels (df : DataFrame) : list str :=
  map col_name (df_columns df).

(** [df[col]] followed by a [Series] attribute: with a label that is not
    unique [df[col]] is a frame, which has no [dtype]. *)
Definition getitem (df : DataFrame) (col : str) : Result Series :=
  match filter (fun s => col_name s = col) (df_columns df) with
  | [s] => Ok s
  | _ => Raise (AttributeError (lit "'DataFrame' object has no attribute 'dtype'"))
  end.

(** [s.dropna()] *)
Definition dropna (vs : list Cell) : list Cell := filter (fun c => notna c = true) vs.

(** The random generator: the raw draws still to come (0 once exhausted). *)
Definition Rng : Type := list nat.

Definition next_draw (g : Rng) : nat * Rng :=
  match g with
  | [] => (0, [])
  | d :: g' => (d, g')
  end.

(** [n] draws without replacement. *)
Fixpoint choice (n : nat) (pool : list Cell) (g : Rng) : list Cell * Rng :=
  match n with
  | 0 => ([], g)
  | S n' =>
      let '(d, g1) := next_draw g in
      let i := d mod length pool in
      match pool !! i with
      | None => ([], g1)
      | Some x =>
          let '(xs, g2) := choice n' (delete i pool) g1 in
          (x :: xs, g2)
      end
  end.

(** [s.sample(n)]: without replacement.  An empty population is refused
    for every sample that is not empty, and a sample larger than the
    population is refused. *)
Definition sample (n : nat) (vs : list Cell) (g : Rng) : Result (list Cell) * Rng :=
  if (length vs =? 0) && (0 <? n)
  then (Raise (ValueError (lit "a must be greater than 0 unless no samples are taken")), g)
  else if length vs <? n
  then (Raise (ValueError (lit "Cannot take a larger sample than population when 'replace=False'")), g)
  else let '(xs, g') := choice n vs g in (Ok xs, g').

(** ** The tabular store: [ExcelDatabase] *)

(** An insertion-ordered [dict] with [str] keys. *)
Definition dict (V : Type) : Type := list (str * V).

Fixpoint dict_get {V} (k : str) (d : dict V) : option V :=
  match d with
  | [] => None
  | (k', v) :: d' => if decide (k = k') then Some v else dict_get k d'
  end.

(** [d[k] = v]: a present key keeps its place. *)
Fixpoint dict_set {V} (k : str) (v : V) (d : dict V) : dict V :=
  match d with
  | [] => [(k, v)]
  | (k', v') :: d' =>
      if decide (k = k') then (k, v) :: d' else (k', v') :: dict_set k v d'
  end.

Definition dict_keys {V} (d : dict V) : list str := map fst d.

(** An entry of [self.sheets] *)
Record SheetInfo : Type := {
  clean_name : str;
  columns : list str;
  data : DataFrame
}.

(** The store: the registry [self.sheets] and the execution backend
    [self.conn], seen as the tables it holds by name. *)
Record ExcelDatabase : Type := {
  sheets : dict SheetInfo;
  conn : gmap str DataFrame
}.

(** [ExcelDatabase()] *)
Definition ExcelDatabase_init : ExcelDatabase :=
  {| sheets := []; conn := ∅ |}.

(** The writes the engine refuses (a frame it cannot store, a name it
    does not allow, a name it already holds in another case, ...): for a
    name, a frame and a backend, the exception raised and the backend
    left behind, or [None] when the write goes through. *)
Definition SqlWriter : Type :=
  str -> DataFrame -> gmap str DataFrame -> option (exn * gmap str DataFrame).

(** [df.to_sql(name, conn, index=False, if_exists='replace')]: when the
    write goes through, a table of that name is dropped and created anew
    from the frame. *)
Definition to_sql (writer : SqlWriter) (name : str) (df : DataFrame)
    (c : gmap str DataFrame) : Result unit * gmap str DataFrame :=
  match writer name df c with
  | Some (e, c') => (Raise e, c')
  | None => (Ok tt, <[name := df]> c)
  end.

Definition add_sheet (writer : SqlWriter) (sheet_name : str) (df : DataFrame)
    (self : ExcelDatabase) : Result unit * ExcelDatabase :=
  match _clean_table_name sheet_name with
  | Raise e => (Raise e, self)
  | Ok clean =>
      let sheets' :=
        dict_set sheet_name
          {| clean_name := clean; columns := column_labels df; data := df |}
          (sheets self) in
      let '(written, conn') := to_sql writer clean df (conn self) in
      (written, {| sheets := sheets'; conn := conn' |})
  end.

Definition get_all_sheet_info (self : ExcelDatabase) : dict SheetInfo :=
  sheets self.

(** ** Prompt templates *)

(** The prompt of [generate_sql], the same in the three providers. *)
Definition sql_prompt (schema_str : str) (query : str) : str :=
  lit "
        You are an expert in translating natural language questions to SQL queries.
        
        DATABASE SCHEMA:
        "
  ++ schema_str
  ++ lit "
        
        USER QUESTION:
        "
  ++ query
  ++ lit "
        
        Your task is to generate a valid SQL query that answers the user's question based on the provided database schema.
        Return ONLY the SQL query without any explanations or comments. Make sure the SQL query is valid and uses the correct table and column names.
        ".

(** The prompt of [generate_response], the same in the three providers. *)
Definition response_prompt (query : str) (result_str : str) (context_json : str) : str :=
  lit "
        You are an expert data analyst providing answers based on SQL query results.
        
        USER QUESTION:
        "
  ++ query
  ++ lit "
        
        SQL QUERY RESULTS:
        "
  ++ result_str
  ++ lit "
        
        CONTEXT:
        "
  ++ context_json
  ++ lit "
        
        Your task is to provide a clear, concise answer to the user's question based on the SQL query results.
        Explain the results in natural language, providing insights and context where appropriate.
        If the results are empty or don't directly answer the question, acknowledge this and explain possible reasons why.
        ".

(** The prompt of [RAGSystem._fix_sql_query]. *)
Definition fix_prompt (sql_query : str) (error_message : str) (schema_str : str) : str :=
  lit "
        You are an expert in SQL. The following SQL query failed:
        
        ```sql
        "
  ++ sql_query
  ++ lit "
        ```
        
        Error message:
        "
  ++ error_message
  ++ lit "
        
        DATABASE SCHEMA:
        "
  ++ schema_str
  ++ lit "
        
        Please fix the SQL query to make it work with the given schema. Return ONLY the fixed SQL query without any explanations or comments.
        ".

(** ** State and errors *)

(** A computation that reads and writes a state [S] and may raise. *)
Definition M (S A : Type) : Type := S -> Result A * S.

Definition ret {S A} (a : A) : M S A := fun s => (Ok a, s).

Definition bind {S A B} (m : M S A) (k : A -> M S B) : M S B :=
  fun s =>
    match m s with
    | (Ok a, s') => k a s'
    | (Raise e, s') => (Raise e, s')
    end.

(** A pure step that may raise. *)
Definition lift {S A} (r : Result A) : M S A := fun s => (r, s).

(** [try: m  except Exception as e: ...]: the outcome of [m] as a value. *)
Definition try {S A} (m : M S A) : M S (Result A) :=
  fun s => let '(r, s') := m s in (Ok r, s').

Notation "x <- m ;; k" := (bind m (fun x => k))
  (at level 100, m at next level, right associativity, only parsing).

Fixpoint mapM {S A B} (f : A -> M S B) (l : list A) : M S (list B) :=
  match l with
  | [] => ret []
  | a :: l' => b <- f a ;; bs <- mapM f l' ;; ret (b :: bs)
  end.

(** ** The schema snapshot: [RAGSystem._get_database_schema] *)

(** An entry of a table's ['columns'] list *)
Record ColumnInfo : Type := {
  ci_name : str;
  ci_type : str;
  ci_sample_values : list Cell
}.

(** The value of a table in the snapshot *)
Record TableSchema : Type := {
  table_name : str;
  ts_columns : list ColumnInfo;
  row_count : nat
}.

Definition Schema : Type := dict TableSchema.

(** The mapping of pandas dtypes to column types. *)
Definition column_type_of (dtype_str : str) : str :=
  if contains (lit "int") dtype_str then lit "INTEGER"
  else if contains (lit "float") dtype_str then lit "REAL"
  else if contains (lit "datetime") dtype_str then lit "DATETIME"
  else lit "TEXT".

(** The body of the loop over [df.columns]. *)
Definition column_info (df : DataFrame) (col : str) : M Rng ColumnInfo :=
  s <- lift (getitem df col) ;;
  let dtype_str := col_dtype s in
  let column_type := column_type_of dtype_str in
  sample_values <- sample (min 3 (max 1 (nrows df))) (dropna (col_values s)) ;;
  ret {| ci_name := col; ci_type := column_type;
         ci_sample_values := sample_values |}.

(** The loop over [sheet_info.items()], filling [schema]. *)
Fixpoint schema_loop (items : list (str * SheetInfo)) (schema : Schema)
  : M Rng Schema :=
  match items with
  | [] => ret schema
  | (sheet_name, info) :: rest =>
      let df := data info in
      cols <- mapM (column_info df) (column_labels df) ;;
      schema_loop rest
        (dict_set sheet_name
           {| table_name := clean_name info; ts_columns := cols;
              row_count := nrows df |}
           schema)
  end.

Definition _get_database_schema (database : ExcelDatabase) : M Rng Schema :=
  schema_loop (get_all_sheet_info database) [].

(** ** The provider interface and the pipeline: [RAGSystem.query] *)

(** The [context] dict handed to answer generation *)
Record Context : Type := {
  original_query : str;
  ctx_sql_query : str;
  ctx_schema : Schema
}.

(** What the pipeline asks of its collaborators, in the order asked. *)
Inductive Event : Type :=
  | EvGenerateSql (prompt : str) (schema : Schema)
  | EvExecute (query : str)
  | EvGenerateResponse (query : str) (sql_result : DataFrame) (context : Context).

(** [LLMProvider]: the two abstract methods.  What a provider answers may
    depend on everything asked before ([past]) and on its arguments. *)
Record LLMProvider : Type := {
  generate_sql : list Event -> str -> Schema -> Result str;
  generate_response :
    list Event -> str -> option DataFrame -> Context -> Result str
}.

(** [pd.read_sql_query(query, conn)]: the engine's answer and the backend
    it leaves behind. *)
Definition SqlEngine : Type :=
  str -> gmap str DataFrame -> Result DataFrame * gmap str DataFrame.

(** The state a call of [query] runs in. *)
Record World : Type := {
  db : ExcelDatabase;
  rng : Rng;
  trace : list Event
}.

Definition log (ev : Event) (w : World) : World :=
  {| db := db w; rng := rng w; trace := trace w ++ [ev] |}.

Section Pipeline.

Variable engine : SqlEngine.
Variable llm_provider : LLMProvider.
(** [str(database_schema)] *)
Variable repr_schema : Schema -> str.

(** [self.database.execute_query(query)] *)
Definition execute_query (query : str) : M World DataFrame :=
  fun w =>
    let '(r, conn') := engine query (conn (db w)) in
    (r, log (EvExecute query)
          {| db := {| sheets := sheets (db w); conn := conn' |};
             rng := rng w; trace := trace w |}).

(** [self.llm_provider.generate_sql(prompt, schema)] *)
Definition call_generate_sql (prompt : str) (schema : Schema) : M World str :=
  fun w =>
    (generate_sql llm_provider (trace w) prompt schema,
     log (EvGenerateSql prompt schema) w).

(** [self.llm_provider.generate_response(query, results, context)] *)
Definition call_generate_response (query : str) (results : DataFrame)
    (context : Context) : M World str :=
  fun w =>
    (generate_response llm_provider (trace w) query (Some results) context,
     log (EvGenerateResponse query results context) w).

(** [self._get_database_schema()] *)
Definition get_schema : M World Schema :=
  fun w =>
    let '(r, g) := _get_database_schema (db w) (rng w) in
    (r, {| db := db w; rng := g; trace := trace w |}).

Definition _fix_sql_query (sql_query error_message : str)
    (database_schema : Schema) : M World str :=
  let schema_str := repr_schema database_schema in
  let prompt := fix_prompt sql_query error_message schema_str in
  fixed_sql <- call_generate_sql prompt database_schema ;;
  ret fixed_sql.

Definition query (natural_language_query : str) : M World (str * str) :=
  database_schema <- get_schema ;;
  sql_query <- call_generate_sql natural_language_query database_schema ;;
  let sql_query := _clean_sql_query sql_query in
  attempt <- try (execute_query sql_query) ;;
  final <-
    match attempt with
    | Ok results => ret (sql_query, results)
    | Raise e =>
        fixed_sql <- _fix_sql_query sql_query (str_exn e) database_schema ;;
        let fixed_sql := _clean_sql_query fixed_sql in
        results <- execute_query fixed_sql ;;
        ret (fixed_sql, results)
    end ;;
  let '(sql_query, results) := final in
  let context :=
    {| original_query := natural_language_query;
       ctx_sql_query := sql_query;
       ctx_schema := database_schema |} in
  response <- call_generate_response natural_language_query results context ;;
  ret (sql_query, response).

End Pipeline.

(** ** The concrete providers: [llm_providers.py] *)

Definition and_then {A B} (r : Result A) (k : A -> Result B) : Result B :=
  match r with
  | Ok a => k a
  | Raise e => Raise e
  end.

(** What a provider sends to its remote model. *)
Record Request : Type := {
  req_service : str;
  req_api_key : str;
  req_model : str;
  req_system : option str;
  req_prompt : str;
  req_temperature : option Q
}.

(** The remote model: the text of its answer, or the exception of the
    client library. *)
Definition Transport : Type := list Event -> Request -> Result str.

Record OpenAIProvider : Type := {
  openai_client_key : str;
  openai_model : str
}.

Record GeminiProvider : Type := {
  gemini_api_key : str
}.

Record OpenRouterProvider : Type := {
  openrouter_api_key : str;
  openrouter_api_url : str;
  openrouter_model : str
}.

(** [os.environ] *)
Definition Environ : Type := gmap str str.

(** The two first statements of every [__init__]:
    [if api_key is None: api_key = os.environ.get(var)] and
    [if not api_key: raise ValueError(message)]. *)
Definition OpenAIProvider_init (environ : Environ) (api_key : option str)
  : Result OpenAIProvider :=
  let api_key :=
    match api_key with
    | None => environ !! lit "OPENAI_API_KEY"
    | Some k => Some k
    end in
  match api_key with
  | None | Some [] =>
      Raise (ValueError (lit "OpenAI API key is required. Please provide it through the UI."))
  | Some k => Ok {| openai_client_key := k; openai_model := lit "gpt-4o" |}
  end.

Definition GeminiProvider_init (environ : Environ) (api_key : option str)
  : Result GeminiProvider :=
  let api_key :=
    match api_key with
    | None => environ !! lit "GEMINI_API_KEY"
    | Some k => Some k
    end in
  match api_key with
  | None | Some [] =>
      Raise (ValueError (lit "Gemini API key is required. Please provide it through the UI."))
  | Some k => Ok {| gemini_api_key := k |}
  end.

Definition OpenRouterProvider_init (environ : Environ) (api_key : option str)
  : Result OpenRouterProvider :=
  let api_key :=
    match api_key with
    | None => environ !! lit "OPENROUTER_API_KEY"
    | Some k => Some k
    end in
  match api_key with
  | None | Some [] =>
      Raise (ValueError (lit "OpenRouter API key is required. Please provide it through the UI."))
  | Some k =>
      Ok {| openrouter_api_key := k;
            openrouter_api_url := lit "https://openrouter.ai/api/v1/chat/completions";
            openrouter_model := lit "deepseek/deepseek-r1-zero:free" |}
  end.

(** The provider variants. *)
Inductive Provider : Type :=
  | OpenAI (p : OpenAIProvider)
  | Gemini (p : GeminiProvider)
  | OpenRouter (p : OpenRouterProvider).

Inductive ProviderKind : Type := KOpenAI | KGemini | KOpenRouter.

(** The constructor of each variant. *)
Definition Provider_init (kind : ProviderKind) (environ : Environ)
    (api_key : option str) : Result Provider :=
  match kind with
  | KOpenAI => and_then (OpenAIProvider_init environ api_key) (fun p => Ok (OpenAI p))
  | KGemini => and_then (GeminiProvider_init environ api_key) (fun p => Ok (Gemini p))
  | KOpenRouter =>
      and_then (OpenRouterProvider_init environ api_key) (fun p => Ok (OpenRouter p))
  end.

(** The environment variable each variant falls back to. *)
Definition env_var (kind : ProviderKind) : str :=
  match kind with
  | KOpenAI => lit "OPENAI_API_KEY"
  | KGemini => lit "GEMINI_API_KEY"
  | KOpenRouter => lit "OPENROUTER_API_KEY"
  end.

(** [c.lower()] on the code points below 256. *)
Definition lower_char (c : ascii) : ascii :=
  let n := nat_of_ascii c in
  if in_range 65 90 c || in_range 192 214 c || in_range 216 222 c
  then ascii_of_nat (n + 32) else c.

Definition lower (s : str) : str := map lower_char s.

(** [LLMProvider.create] *)
Definition create (environ : Environ) (provider_name : str)
    (api_key : option str) : Result Provider :=
  if decide (lower provider_name = lit "openai")
  then Provider_init KOpenAI environ api_key
  else if decide (lower provider_name = lit "gemini")
  then Provider_init KGemini environ api_key
  else if decide (lower provider_name = lit "openrouter")
  then Provider_init KOpenRouter environ api_key
  else Raise (ValueError (lit "Unsupported LLM provider: " ++ provider_name)).

Section Providers.

Variable transport : Transport.
(** [json.dumps(database_schema, indent=2)], [json.dumps(context, indent=2)]
    (a value [json] cannot serialise raises) and [sql_result.to_string()] *)
Variable json_dumps_schema : Schema -> Result str.
Variable json_dumps_context : Context -> Result str.
Variable to_string : DataFrame -> str.

(** The rendering of the result, first statement of every
    [generate_response]. *)
Definition result_str_of (sql_result : option DataFrame) : str :=
  match sql_result with
  | Some df =>
      if negb (df_empty df) then to_string df else lit "No results found"
  | None => lit "No results found"
  end.

Definition sql_system : str :=
  lit "You are a SQL expert that translates natural language to SQL.".
Definition response_system : str :=
  lit "You are a data analysis expert explaining query results in natural language.".

(** The request of each variant for a prompt. *)
Definition request_of (self : Provider) (system : str) (temperature : Q)
    (prompt : str) : Request :=
  match self with
  | OpenAI p =>
      {| req_service := lit "openai"; req_api_key := openai_client_key p;
         req_model := openai_model p; req_system := Some system;
         req_prompt := prompt; req_temperature := Some temperature |}
  | Gemini p =>
      {| req_service := lit "gemini"; req_api_key := gemini_api_key p;
         req_model := lit "gemini-2.0-flash"; req_system := None;
         req_prompt := prompt; req_temperature := None |}
  | OpenRouter p =>
      {| req_service := openrouter_api_url p;
         req_api_key := openrouter_api_key p;
         req_model := openrouter_model p; req_system := Some system;
         req_prompt := prompt; req_temperature := Some temperature |}
  end.

Definition Provider_generate_sql (self : Provider) (past : list Event)
    (query : str) (database_schema : Schema) : Result str :=
  and_then (json_dumps_schema database_schema) (fun schema_str =>
  let prompt := sql_prompt schema_str query in
  and_then (transport past (request_of self sql_system 0%Q prompt))
    (fun content => Ok (strip content))).

Definition Provider_generate_response (self : Provider) (past : list Event)
    (query : str) (sql_result : option DataFrame) (context : Context)
  : Result str :=
  let result_str := result_str_of sql_result in
  and_then (json_dumps_context context) (fun context_json =>
  let prompt := response_prompt query result_str context_json in
  and_then (transport past (request_of self response_system (3 # 10)%Q prompt))
    (fun content => Ok (strip content))).

(** A variant as an [LLMProvider]. *)
Definition as_LLMProvider (self : Provider) : LLMProvider :=
  {| generate_sql := Provider_generate_sql self;
     generate_response := Provider_generate_response self |}.

End Providers.

(** ** Vocabulary of the statements *)

(** [w] is made of whitespace only. *)
Definition spaces (w : str) : Prop := Forall (fun c => isspace c = true) w.

(** [a] occurs in [b] as a contiguous run of characters. *)
Definition substring (a b : str) : Prop := exists pre post, b = pre ++ a ++ post.

Definition underscore : ascii := "_"%char.

(** A letter, a digit or an underscore. *)
Definition ident_char (c : ascii) : Prop := alnum c = true \/ c = underscore.

(** The credential a constructed provider holds. *)
Definition credential (p : Provider) : str :=
  match p with
  | OpenAI p => openai_client_key p
  | Gemini p => gemini_api_key p
  | OpenRouter p => openrouter_api_key p
  end.

(** The credential a constructor decides on: the argument when one is
    passed, the environment variable otherwise. *)
Definition effective_key (kind : ProviderKind) (environ : Environ)
    (api_key : option str) : option str :=
  match api_key with
  | Some k => Some k
  | None => environ !! env_var kind
  end.

(** The marker answer generation puts in place of an empty result. *)
Definition no_results_marker : str := lit "No results found".

(** The kinds of events. *)
Definition is_generate_sql (ev : Event) : bool :=
  match ev with EvGenerateSql _ _ => true | _ => false end.

Definition is_execute (ev : Event) : bool :=
  match ev with EvExecute _ => true | _ => false end.

(** How many events of a trace are of a kind. *)
Definition count_events (kind : Event -> bool) (events : list Event) : nat :=
  length (List.filter kind events).

(** A frame whose columns can all be sampled: distinct labels, and in
    every column at least [min(3, max(1, len(df)))] values that are not
    null. *)
Definition samplable (df : DataFrame) : Prop :=
  NoDup (column_labels df)
  /\ Forall (fun s => min 3 (max 1 (nrows df)) <= length (dropna (col_values s)))
       (df_columns df).

(** A snapshot entry [ci] describes the column [s] of [df]. *)
Definition describes (ci : ColumnInfo) (df : DataFrame) (s : Series) : Prop :=
  ci_name ci = col_name s
  /\ ci_type ci = column_type_of (col_dtype s)
  /\ length (ci_sample_values ci) = min 3 (max 1 (nrows df))
  /\ ci_sample_values ci ⊆+ dropna (col_values s).

(** A snapshot value [ts] describes the registered table [info]. *)
Definition table_describes (ts : TableSchema) (info : SheetInfo) : Prop :=
  table_name ts = clean_name info
  /\ row_count ts = nrows (data info)
  /\ Forall2 (fun ci s => describes ci (data info) s)
       (ts_columns ts) (df_columns (data info)).

Arguments fix_prompt : simpl never.
Arguments _clean_sql_query : simpl never.

(** ** The scenarios of the specification *)

Definition sales : DataFrame :=
  {| nrows := 2;
     df_columns :=
       [ {| col_name := lit "region"; col_dtype := lit "object";
            col_values := [TextCell (lit "East"); TextCell (lit "West")] |};
         {| col_name := lit "amount"; col_dtype := lit "float64";
            col_values := [RealCell 100; RealCell 150] |} ] |}.

(** A table with its columns and no row. *)
Definition sales_no_rows : DataFrame :=
  {| nrows := 0;
     df_columns :=
       [ {| col_name := lit "region"; col_dtype := lit "object";
            col_values := [] |};
         {| col_name := lit "amount"; col_dtype := lit "float64";
            col_values := [] |} ] |}.

(** Three rows, one value that is not null. *)
Definition notes : DataFrame :=
  {| nrows := 3;
     df_columns :=
       [ {| col_name := lit "note"; col_dtype := lit "object";
            col_values := [Null; TextCell (lit "late"); Null] |} ] |}.

(** An engine that takes every write. *)
Definition accepting : SqlWriter := fun _ _ _ => None.

(** An engine that refuses a frame without columns and leaves the
    backend as it was. *)
Definition refusing_blank : SqlWriter :=
  fun _ df c =>
    match df_columns df with
    | [] => Some (External (lit "OperationalError") (lit "syntax error"), c)
    | _ => None
    end.

(** A sheet without rows or columns. *)
Definition blank : DataFrame := {| nrows := 0; df_columns := [] |}.

Definition store_of (sheet_name : str) (df : DataFrame) : ExcelDatabase :=
  snd (add_sheet accepting sheet_name df ExcelDatabase_init).

Definition sales_world : World :=
  {| db := store_of (lit "Sales") sales; rng := []; trace := [] |}.

Definition sales_schema : Schema :=
  Eval vm_compute in
    match fst (_get_database_schema (store_of (lit "Sales") sales) []) with
    | Ok schema => schema
    | Raise _ => []
    end.

Definition total : DataFrame :=
  {| nrows := 1;
     df_columns :=
       [ {| col_name := lit "SUM(amount)"; col_dtype := lit "float64";
            col_values := [RealCell 250] |} ] |}.

Definition no_such_column : exn :=
  External (lit "DatabaseError") (lit "no such column: total").

(** An engine that knows one query. *)
Definition stub_engine : SqlEngine :=
  fun query c =>
    if decide (query = lit "SELECT SUM(amount) FROM Sales")
    then (Ok total, c) else (Raise no_such_column, c).

(** A provider whose first query names a column that does not exist and
    whose second query is right. *)
Definition stub_provider : LLMProvider :=
  {| generate_sql := fun past _ _ =>
       match past with
       | [] => Ok (lit "```sql
SELECT SUM(total) FROM Sales
```")
       | _ => Ok (lit "SELECT SUM(amount) FROM Sales")
       end;
     generate_response := fun _ _ _ _ => Ok (lit "The total amount is 250.") |}.

(** A provider that never gets the column right. *)
Definition stubborn_provider : LLMProvider :=
  {| generate_sql := fun _ _ _ => Ok (lit "SELECT SUM(total) FROM Sales");
     generate_response := fun _ _ _ _ => Ok (lit "The total amount is 250.") |}.

Definition stub_repr : Schema -> str := fun _ => lit "{'Sales': ...}".

(** A model that answers with its own prompt. *)
Definition echo_transport : Transport := fun _ request => Ok (req_prompt request).

Definition sales_context : Context :=
  {| original_query := lit "Who sold nothing?";
     ctx_sql_query := lit "SELECT region FROM Sales WHERE amount = 0";
     ctx_schema := sales_schema |}.

(** ** Loading a workbook: the upload block of [app.py] *)

(** [for sheet_name, df in sheets.items(): db.add_sheet(sheet_name, df)]:
    the first exception ends the loop. *)
Fixpoint add_sheets (writer : SqlWriter) (items : list (str * DataFrame))
    (self : ExcelDatabase) : Result unit * ExcelDatabase :=
  match items with
  | [] => (Ok tt, self)
  | (sheet_name, df) :: rest =>
      match add_sheet writer sheet_name df self with
      | (Ok _, self') => add_sheets writer rest self'
      | (Raise e, self') => (Raise e, self')
      end
  end.

(** The store the session holds after an upload: a fresh store filled
    with the sheets read, or none ([db = None]) when filling it raised. *)
Definition load_workbook (writer : SqlWriter) (workbook : dict DataFrame)
  : option ExcelDatabase :=
  match add_sheets writer workbook ExcelDatabase_init with
  | (Ok _, database) => Some database
  | (Raise _, _) => None
  end.

(** A store whose registry and backend agree on names: no display name
    twice, every entry holds the identifier derived from its display name
    and the column labels of its data, and the backend has a table of
    that identifier. *)
Definition store_consistent (self : ExcelDatabase) : Prop :=
  NoDup (dict_keys (sheets self))
  /\ forall name info,
       dict_get name (sheets self) = Some info ->
       _clean_table_name name = Ok (clean_name info)
       /\ columns info = column_labels (data info)
       /\ is_Some (conn self !! clean_name info).

(** The part of consistency that is about the registry alone. *)
Definition registry_consistent (self : ExcelDatabase) : Prop :=
  NoDup (dict_keys (sheets self))
  /\ forall name info,
       dict_get name (sheets self) = Some info ->
       _clean_table_name name = Ok (clean_name info)
       /\ columns info = column_labels (data info).

(** A workbook with two sheets whose names derive one identifier. *)
Definition quarters : dict DataFrame :=
  [ (lit "Q1 2024", sales); (lit "Q1-2024", notes) ].

(** ** The outcomes of a call of [query], case by case *)

Definition is_generate_response (ev : Event) : bool :=
  match ev with EvGenerateResponse _ _ _ => true | _ => false end.

(** The world after [events], with backend [c] and generator [g]. *)
Definition world_after (w : World) (c : gmap str DataFrame) (g : Rng)
    (events : list Event) : World :=
  {| db := {| sheets := sheets (db w); conn := c |}; rng := g;
     trace := trace w ++ events |}.

(** Answer generation for the results of the query [sql], after [events]. *)
Definition answer_outcome (llm_provider : LLMProvider) (question : str)
    (w : World) (schema : Schema) (g : Rng) (c : gmap str DataFrame)
    (events : list Event) (sql : str) (results : DataFrame)
  : Result (str * str) * World :=
  let context :=
    {| original_query := question; ctx_sql_query := sql; ctx_schema := schema |} in
  let w' :=
    world_after w c g (events ++ [EvGenerateResponse question results context]) in
  match generate_response llm_provider (trace w ++ events) question
          (Some results) context with
  | Ok answer => (Ok (sql, answer), w')
  | Raise e => (Raise e, w')
  end.

Definition query_outcome (engine : SqlEngine) (llm_provider : LLMProvider)
    (repr_schema : Schema -> str) (question : str) (w : World)
  : Result (str * str) * World :=
  match _get_database_schema (db w) (rng w) with
  | (Raise e, g) => (Raise e, {| db := db w; rng := g; trace := trace w |})
  | (Ok schema, g) =>
      let ask1 := EvGenerateSql question schema in
      match generate_sql llm_provider (trace w) question schema with
      | Raise e =>
          (Raise e, {| db := db w; rng := g; trace := trace w ++ [ask1] |})
      | Ok raw1 =>
          let first := _clean_sql_query raw1 in
          match engine first (conn (db w)) with
          | (Ok results, c1) =>
              answer_outcome llm_provider question w schema g c1
                [ask1; EvExecute first] first results
          | (Raise e1, c1) =>
              let prompt := fix_prompt first (str_exn e1) (repr_schema schema) in
              let ask2 := EvGenerateSql prompt schema in
              match generate_sql llm_provider
                      (trace w ++ [ask1; EvExecute first]) prompt schema with
              | Raise e =>
                  (Raise e, world_after w c1 g [ask1; EvExecute first; ask2])
              | Ok raw2 =>
                  let fixed := _clean_sql_query raw2 in
                  match engine fixed c1 with
                  | (Raise e2, c2) =>
                      (Raise e2,
                       world_after w c2 g
                         [ask1; EvExecute first; ask2; EvExecute fixed])
                  | (Ok results, c2) =>
                      answer_outcome llm_provider question w schema g c2
                        [ask1; EvExecute first; ask2; EvExecute fixed]
                        fixed results
                  end
              end
          end
      end
  end.

Definition api_error : exn :=
  External (lit "APIError") (lit "Connection error.").

(** A provider whose model cannot be reached. *)
Definition unreachable_provider : LLMProvider :=
  {| generate_sql := fun _ _ _ => Raise api_error;
     generate_response := fun _ _ _ _ => Raise api_error |}.

(** A provider that writes the right query and fails to answer. *)
Definition mute_provider : LLMProvider :=
  {| generate_sql := fun _ _ _ => Ok (lit "SELECT SUM(amount) FROM Sales");
     generate_response := fun _ _ _ _ => Raise api_error |}.

(** A provider whose first query is wrong and that cannot be reached for
    the repair. *)
Definition flaky_provider : LLMProvider :=
  {| generate_sql := fun past _ _ =>
       match past with
       | [] => Ok (lit "SELECT SUM(total) FROM Sales")
       | _ => Raise api_error
       end;
     generate_response := fun _ _ _ _ => Raise api_error |}.

(** A provider that is right at once. *)
Definition able_provider : LLMProvider :=
  {| generate_sql := fun _ _ _ => Ok (lit "```sql
SELECT SUM(amount) FROM Sales
```");
     generate_response := fun _ _ _ _ => Ok (lit "The total amount is 250.") |}.

Definition empty_world : World :=
  {| db := store_of (lit "Sales") sales_no_rows; rng := []; trace := [] |}.

(** The variant of a provider. *)
Definition kind_of (p : Provider) : ProviderKind :=
  match p with
  | OpenAI _ => KOpenAI
  | Gemini _ => KGemini
  | OpenRouter _ => KOpenRouter
  end.


(** * Properties *)

(** ** Stripping and prefixes *)

Lemma substring_refl a : substring a a.
Proof. exists [], []. by rewrite app_nil_r. Qed.

Lemma substring_trans a b c : substring a b -> substring b c -> substring a c.
Proof.
  intros (p1 & q1 & ->) (p2 & q2 & ->).
  exists (p2 ++ p1), (q1 ++ q2). by rewrite <- !app_assoc.
Qed.

Lemma substring_length a b : substring a b -> length a <= length b.
Proof. intros (p & q & ->). rewrite !length_app. lia. Qed.

Lemma substring_drop n s : substring (drop n s) s.
Proof. exists (take n s), []. by rewrite app_nil_r, take_drop. Qed.

Lemma substring_take n s : substring (take n s) s.
Proof. exists [], (drop n s). simpl. by rewrite take_drop. Qed.

Lemma lstrip_split s : exists w, s = w ++ lstrip s /\ spaces w.
Proof.
  induction s as [|c s (w & Hs & Hw)]; simpl.
  - exists []. split; [done | constructor].
  - destruct (isspace c) eqn:Hc.
    + exists (c :: w). split; [simpl; congruence | by constructor].
    + exists []. split; [done | constructor].
Qed.

Lemma lstrip_spaces_app w s : spaces w -> lstrip (w ++ s) = lstrip s.
Proof. induction 1 as [|c w Hc _ IH]; simpl; [done | by rewrite Hc]. Qed.

Lemma lstrip_spaces w : spaces w -> lstrip w = [].
Proof. intros H. rewrite <- (app_nil_r w). by rewrite lstrip_spaces_app. Qed.

Lemma lstrip_not_spaces_app s t : ~ spaces s -> lstrip (s ++ t) = lstrip s ++ t.
Proof.
  induction s as [|c s IH]; simpl; intros Hn.
  - destruct Hn. constructor.
  - destruct (isspace c) eqn:Hc; [|done].
    apply IH. intros Hs. apply Hn. by constructor.
Qed.

Lemma lstrip_head c s t : lstrip s = c :: t -> isspace c = false.
Proof.
  induction s as [|a s IH]; simpl; [done|].
  destruct (isspace a) eqn:Ha; [done | congruence].
Qed.

Lemma lstrip_nonspace c s : isspace c = false -> lstrip (c :: s) = c :: s.
Proof. intros H. simpl. by rewrite H. Qed.

Lemma lstrip_idem s : lstrip (lstrip s) = lstrip s.
Proof.
  destruct (lstrip s) as [|c t] eqn:E; [done|].
  apply lstrip_nonspace. eapply lstrip_head, E.
Qed.

Lemma spaces_reverse w : spaces w -> spaces (reverse w).
Proof. apply Forall_reverse. Qed.

Lemma rstrip_nil : rstrip [] = [].
Proof. reflexivity. Qed.

Lemma rstrip_split s : exists w, s = rstrip s ++ w /\ spaces w.
Proof.
  destruct (lstrip_split (reverse s)) as (w & Hs & Hw).
  exists (reverse w). split; [|by apply spaces_reverse].
  unfold rstrip. rewrite <- reverse_app, <- Hs. by rewrite reverse_involutive.
Qed.

Lemma rstrip_app_spaces s w : spaces w -> rstrip (s ++ w) = rstrip s.
Proof.
  intros H. unfold rstrip. rewrite reverse_app.
  by rewrite lstrip_spaces_app by by apply spaces_reverse.
Qed.

Lemma rstrip_snoc_nonspace s c : isspace c = false -> rstrip (s ++ [c]) = s ++ [c].
Proof.
  intros H. unfold rstrip. rewrite reverse_app, reverse_singleton.
  change ([c] ++ reverse s) with (c :: reverse s).
  rewrite lstrip_nonspace by done.
  by rewrite reverse_cons, reverse_involutive.
Qed.

Lemma rstrip_cons_nonspace c s : isspace c = false -> rstrip (c :: s) = c :: rstrip s.
Proof.
  intros H. unfold rstrip. rewrite reverse_cons.
  destruct (decide (spaces (reverse s))) as [Hs|Hs].
  - rewrite lstrip_spaces_app by done.
    rewrite (lstrip_spaces (reverse s)) by done.
    by rewrite lstrip_nonspace.
  - rewrite lstrip_not_spaces_app by done. by rewrite reverse_app.
Qed.

Lemma rstrip_idem s : rstrip (rstrip s) = rstrip s.
Proof. unfold rstrip. by rewrite reverse_involutive, lstrip_idem. Qed.

Lemma strip_split s :
  exists w1 w2, s = w1 ++ strip s ++ w2 /\ spaces w1 /\ spaces w2.
Proof.
  destruct (lstrip_split s) as (w1 & Hs & H1).
  destruct (rstrip_split (lstrip s)) as (w2 & Ht & H2).
  exists w1, w2. unfold strip. by rewrite <- Ht.
Qed.

Lemma substring_strip s : substring (strip s) s.
Proof. destruct (strip_split s) as (w1 & w2 & H & _). by exists w1, w2. Qed.

Lemma strip_cons_nonspace c s : isspace c = false -> strip (c :: s) = c :: rstrip s.
Proof.
  intros H. unfold strip. rewrite lstrip_nonspace by done.
  by apply rstrip_cons_nonspace.
Qed.

Lemma strip_idem s : strip (strip s) = strip s.
Proof.
  unfold strip at 2 3.
  destruct (lstrip s) as [|c t] eqn:E; [done|].
  assert (Hc : isspace c = false) by (eapply lstrip_head, E).
  rewrite rstrip_cons_nonspace by done.
  rewrite strip_cons_nonspace by done. by rewrite rstrip_idem.
Qed.

Lemma strip_lstrip s : strip (lstrip s) = strip s.
Proof. unfold strip. by rewrite lstrip_idem. Qed.

Lemma strip_pad w1 w2 s : spaces w1 -> spaces w2 -> strip (w1 ++ s ++ w2) = strip s.
Proof.
  intros H1 H2. unfold strip. rewrite lstrip_spaces_app by done.
  destruct (decide (spaces s)) as [Hs|Hs].
  - rewrite lstrip_spaces by (apply Forall_app; done).
    by rewrite lstrip_spaces.
  - rewrite lstrip_not_spaces_app by done. by apply rstrip_app_spaces.
Qed.

Lemma strip_length s : length (strip s) <= length s.
Proof. apply substring_length, substring_strip. Qed.

Lemma startswith_app p s : startswith (p ++ s) p = true.
Proof. induction p as [|a p IH]; simpl; [done|]. by rewrite Ascii.eqb_refl. Qed.

Lemma startswith_inv s p : startswith s p = true -> exists t, s = p ++ t.
Proof.
  revert s. induction p as [|a p IH]; intros s H.
  - by exists s.
  - destruct s as [|b s]; simpl in H; [done|].
    destruct (Ascii.eqb a b) eqn:E; [|done].
    apply Ascii.eqb_eq in E as ->.
    destruct (IH _ H) as (t & ->). by exists t.
Qed.

Lemma endswith_app s p : endswith (s ++ p) p = true.
Proof. unfold endswith. rewrite reverse_app. apply startswith_app. Qed.

Lemma endswith_inv s p : endswith s p = true -> exists t, s = t ++ p.
Proof.
  unfold endswith. intros H. apply startswith_inv in H as (t & H).
  exists (reverse t).
  rewrite <- (reverse_involutive s), H, reverse_app.
  by rewrite reverse_involutive.
Qed.

Lemma drop_last_app s p : drop_last (length p) (s ++ p) = s.
Proof.
  unfold drop_last. rewrite length_app.
  replace (length s + length p - length p) with (length s) by lia.
  by rewrite take_app_length.
Qed.

Lemma startswith_app_same p s q : startswith (p ++ s) (p ++ q) = startswith s q.
Proof. induction p as [|a p IH]; simpl; [done|]. by rewrite Ascii.eqb_refl. Qed.

Lemma startswith_length s p : startswith s p = true -> length p <= length s.
Proof. intros H. apply startswith_inv in H as (t & ->). rewrite length_app. lia. Qed.

Lemma endswith_length s p : endswith s p = true -> length p <= length s.
Proof. intros H. apply endswith_inv in H as (t & ->). rewrite length_app. lia. Qed.

Lemma startswith_longer s p q : startswith s p = false -> startswith s (p ++ q) = false.
Proof.
  revert s. induction p as [|a p IH]; intros s H; simpl in *; [done|].
  destruct s as [|b s]; [done|].
  destruct (Ascii.eqb a b); [by apply IH | done].
Qed.

Lemma strip_ends c m d :
  isspace c = false -> isspace d = false -> strip (c :: m ++ [d]) = c :: m ++ [d].
Proof.
  intros Hc Hd. rewrite strip_cons_nonspace by done.
  by rewrite rstrip_snoc_nonspace.
Qed.

(** ** The sanitizer *)

Lemma fence_sql_eq : fence_sql = fence ++ lit "sql".
Proof. reflexivity. Qed.

Lemma strip_app_fence b : strip (b ++ fence) = lstrip b ++ fence.
Proof.
  unfold strip. destruct (decide (spaces b)) as [Hb|Hb].
  - rewrite lstrip_spaces_app by done. by rewrite (lstrip_spaces b).
  - rewrite lstrip_not_spaces_app by done.
    change fence with (lit "``" ++ ["`"%char]). rewrite app_assoc.
    by apply rstrip_snoc_nonspace.
Qed.

Lemma clean_stripped x : strip (_clean_sql_query x) = _clean_sql_query x.
Proof.
  unfold _clean_sql_query.
  repeat match goal with |- context [if ?b then _ else _] => destruct b end;
    apply strip_idem.
Qed.

Lemma clean_strip x : _clean_sql_query (strip x) = _clean_sql_query x.
Proof. unfold _clean_sql_query. by rewrite strip_idem. Qed.

Lemma clean_pad w1 w2 x :
  spaces w1 -> spaces w2 -> _clean_sql_query (w1 ++ x ++ w2) = _clean_sql_query x.
Proof. intros H1 H2. unfold _clean_sql_query. by rewrite strip_pad. Qed.

Lemma clean_noop t :
  strip t = t -> startswith t fence = false -> endswith t fence = false ->
  _clean_sql_query t = t.
Proof.
  intros Ht Hs He. unfold _clean_sql_query. rewrite Ht.
  rewrite fence_sql_eq, (startswith_longer _ _ _ Hs), Hs. by rewrite He.
Qed.

(** After the opening marker is gone, the rest of the work is the same for
    a tagged and a bare fence. *)
Lemma clean_tail b :
  (if endswith (strip (b ++ fence)) fence
   then strip (drop_last 3 (strip (b ++ fence)))
   else strip (b ++ fence)) = strip b.
Proof.
  rewrite strip_app_fence, endswith_app.
  change 3 with (length fence). rewrite drop_last_app. apply strip_lstrip.
Qed.

Lemma strip_fenced open b :
  strip ((fence ++ open) ++ b ++ fence) = (fence ++ open) ++ b ++ fence.
Proof.
  assert (E : (fence ++ open) ++ b ++ fence
              = "`"%char :: (lit "``" ++ open ++ b ++ lit "``") ++ ["`"%char]).
  { change fence with ("`"%char :: lit "``") at 1.
    change fence with (lit "``" ++ ["`"%char]).
    simpl. by rewrite <- !app_assoc. }
  rewrite E. by apply strip_ends.
Qed.

Lemma clean_fenced_sql w1 w2 b :
  spaces w1 -> spaces w2 ->
  _clean_sql_query (w1 ++ (fence_sql ++ b ++ fence) ++ w2) = strip b.
Proof.
  intros H1 H2. rewrite clean_pad by done. unfold _clean_sql_query.
  pose proof (strip_fenced (lit "sql") b) as Hs.
  rewrite <- fence_sql_eq in Hs. rewrite Hs, startswith_app.
  change 6 with (length fence_sql). rewrite drop_app_length.
  apply clean_tail.
Qed.

Lemma bare_fence_not_sql b :
  startswith b (lit "sql") = false ->
  startswith (fence ++ b ++ fence) fence_sql = false.
Proof.
  intros H. rewrite fence_sql_eq, startswith_app_same.
  destruct b as [|c1 [|c2 [|c3 b]]]; simpl in *;
    repeat match goal with |- context [Ascii.eqb ?a ?c] => destruct (Ascii.eqb a c) end;
    done.
Qed.

Lemma clean_fenced_bare w1 w2 b :
  spaces w1 -> spaces w2 -> startswith b (lit "sql") = false ->
  _clean_sql_query (w1 ++ (fence ++ b ++ fence) ++ w2) = strip b.
Proof.
  intros H1 H2 Hb. rewrite clean_pad by done. unfold _clean_sql_query.
  pose proof (strip_fenced [] b) as Hs. rewrite app_nil_r in Hs. rewrite Hs.
  rewrite (bare_fence_not_sql b Hb), startswith_app.
  change 3 with (length fence) at 1. rewrite drop_app_length.
  apply clean_tail.
Qed.

Lemma clean_shrinks y :
  strip y = y ->
  startswith y fence = true \/ endswith y fence = true ->
  length (_clean_sql_query y) < length y.
Proof.
  intros Hy H. unfold _clean_sql_query. rewrite Hy.
  assert (Hlast : forall s, length (if endswith s fence
                       then strip (drop_last 3 s) else s) <= length s).
  { intros s. destruct (endswith s fence); [|done].
    etrans; [apply strip_length|]. unfold drop_last. rewrite length_take. lia. }
  assert (Hdrop : forall n, 0 < n -> n <= length y ->
            length (strip (drop n y)) < length y).
  { intros n Hn Hl. eapply Nat.le_lt_trans; [apply strip_length|].
    rewrite length_drop. lia. }
  destruct (startswith y fence_sql) eqn:E1.
  { eapply Nat.le_lt_trans; [apply Hlast|].
    apply Hdrop; [lia|]. by apply startswith_length in E1. }
  destruct (startswith y fence) eqn:E2.
  { eapply Nat.le_lt_trans; [apply Hlast|].
    apply Hdrop; [lia|]. by apply startswith_length in E2. }
  destruct H as [H|H]; [done|]. rewrite H.
  apply endswith_length in H. change (length fence) with 3 in H.
  eapply Nat.le_lt_trans; [apply strip_length|].
  unfold drop_last. rewrite length_take. lia.
Qed.

Lemma contains_app p t s : contains p s = true -> contains p (t ++ s) = true.
Proof.
  intros H. induction t as [|c t IH]; [done|].
  simpl. rewrite IH. apply orb_true_r.
Qed.

Lemma contains_startswith p s : contains p s = false -> startswith s p = false.
Proof. destruct s; simpl; intros H; by apply orb_false_elim in H as [? _]. Qed.

Lemma contains_endswith p s : contains p s = false -> endswith s p = false.
Proof.
  intros H. destruct (endswith s p) eqn:E; [|done].
  apply endswith_inv in E as (t & ->).
  rewrite contains_app in H; [done|].
  destruct p; simpl; [done|].
  pose proof (startswith_app (a :: p) []) as Hp. rewrite app_nil_r in Hp.
  simpl in Hp. by rewrite Hp.
Qed.

(** C10: the sanitized text is a contiguous run of characters of the input
    (characters are only removed at the two ends; nothing is inserted,
    reordered or altered), so it is never longer than the input. *)
Theorem clean_sql_query_substring (x : str) :
  substring (_clean_sql_query x) x
  /\ length (_clean_sql_query x) <= length x.
Proof.
  assert (H : substring (_clean_sql_query x) x).
  { unfold _clean_sql_query.
    assert (H2 : forall s, substring
               (if endswith s fence then strip (drop_last 3 s) else s) s).
    { intros s. destruct (endswith s fence); [|apply substring_refl].
      eapply substring_trans; [apply substring_strip | apply substring_take]. }
    eapply substring_trans; [apply H2|].
    eapply substring_trans; [|apply (substring_strip x)].
    repeat match goal with |- context [if ?b then _ else _] => destruct b end;
      try apply substring_refl;
      (eapply substring_trans; [apply substring_strip | apply substring_drop]). }
  split; [done | by apply substring_length].
Qed.

(** C5, the claim as stated fails: a fence tagged with a language other
    than [sql] loses its markers but keeps the tag, so more than the text
    between the markers comes back. *)
Lemma clean_sql_query_keeps_python_tag :
  _clean_sql_query (lit "```python
SELECT 1
```") = lit "python
SELECT 1"
  /\ _clean_sql_query (lit "```python
SELECT 1
```") <> lit "SELECT 1".
Proof. split; [reflexivity | discriminate]. Qed.

(** Of a tag that begins with [sql] only [sql] is removed. *)
Lemma clean_sql_query_sqlite_tag :
  _clean_sql_query (lit "```sqlite
SELECT 1
```") = lit "ite
SELECT 1".
Proof. reflexivity. Qed.

(** C5, as the code has it.  The sanitized text has no whitespace at its
    ends and does not depend on whitespace around the input.  An input
    that is, up to surrounding whitespace, an opening fence followed at
    once by [sql], then [b], then a closing fence, is sanitized to [b]
    trimmed, whatever [b] begins with: of a longer tag that begins with
    [sql] only [sql] is removed.  An input that is, up to surrounding
    whitespace, a bare opening fence, then [b], then a closing fence,
    where [b] does not begin with [sql], is sanitized to [b] trimmed: a
    tag that does not begin with [sql] is not removed and stays at the
    start of the result.  A trimmed text bearing no fence marker is
    returned as it is. *)
Theorem clean_sql_query_fences (w1 w2 b t : str) :
  spaces w1 -> spaces w2 ->
  strip (_clean_sql_query t) = _clean_sql_query t
  /\ _clean_sql_query (w1 ++ t ++ w2) = _clean_sql_query t
  /\ _clean_sql_query (w1 ++ (fence_sql ++ b ++ fence) ++ w2) = strip b
  /\ (startswith b (lit "sql") = false ->
      _clean_sql_query (w1 ++ (fence ++ b ++ fence) ++ w2) = strip b)
  /\ (strip t = t -> contains fence t = false -> _clean_sql_query t = t).
Proof.
  intros H1 H2. split; [apply clean_stripped|].
  split; [by apply clean_pad|].
  split; [by apply clean_fenced_sql|].
  split; [intros Hb; by apply clean_fenced_bare|].
  intros Ht Hc. apply clean_noop; [done | |].
  - by apply contains_startswith.
  - by apply contains_endswith.
Qed.

(** A query between a fence tagged [sql] and a closing fence, with
    whitespace around. *)
Lemma clean_sql_query_fences_witness :
  let w1 := lit "  " in
  let w2 := lit "
" in
  let b := lit "
SELECT 1
" in
  let t := lit "SELECT 1" in
  strip (_clean_sql_query t) = _clean_sql_query t
  /\ _clean_sql_query (w1 ++ t ++ w2) = _clean_sql_query t
  /\ _clean_sql_query (w1 ++ (fence_sql ++ b ++ fence) ++ w2) = strip b
  /\ (startswith b (lit "sql") = false ->
      _clean_sql_query (w1 ++ (fence ++ b ++ fence) ++ w2) = strip b)
  /\ (strip t = t -> contains fence t = false -> _clean_sql_query t = t).
Proof.
  apply (clean_sql_query_fences (lit "  ") (lit "
")); repeat constructor.
Defined.

(** C6, the claim as stated fails: one pass removes one layer of markers,
    so a fence inside a fence is only uncovered by the first pass and
    removed by the second. *)
Lemma clean_sql_query_not_idempotent :
  _clean_sql_query (lit "```
```sql
SELECT 1
```
```") = lit "```sql
SELECT 1
```"
  /\ _clean_sql_query (_clean_sql_query (lit "```
```sql
SELECT 1
```
```")) = lit "SELECT 1"
  /\ _clean_sql_query (_clean_sql_query (lit "```
```sql
SELECT 1
```
```")) <> _clean_sql_query (lit "```
```sql
SELECT 1
```
```").
Proof. split; [reflexivity | split; [reflexivity | discriminate]]. Qed.

(** C6, as the code has it: a second pass changes nothing exactly when the
    text the first pass returned neither begins nor ends with a fence
    marker. *)
Theorem clean_sql_query_idempotent_iff (x : str) :
  _clean_sql_query (_clean_sql_query x) = _clean_sql_query x
  <-> startswith (_clean_sql_query x) fence = false
      /\ endswith (_clean_sql_query x) fence = false.
Proof.
  split.
  - intros H.
    destruct (startswith (_clean_sql_query x) fence) eqn:E1;
      [|destruct (endswith (_clean_sql_query x) fence) eqn:E2; [|done]].
    + pose proof (clean_shrinks _ (clean_stripped x) (or_introl E1)) as Hl.
      rewrite H in Hl. lia.
    + pose proof (clean_shrinks _ (clean_stripped x) (or_intror E2)) as Hl.
      rewrite H in Hl. lia.
  - intros [H1 H2]. apply clean_noop; [apply clean_stripped | done | done].
Qed.

(** One layer of markers: the second pass changes nothing. *)
Lemma clean_sql_query_idempotent_iff_witness :
  _clean_sql_query (_clean_sql_query (lit "```sql
SELECT 1
```")) = _clean_sql_query (lit "```sql
SELECT 1
```").
Proof.
  apply (proj2 (clean_sql_query_idempotent_iff (lit "```sql
SELECT 1
```"))).
  split; reflexivity.
Defined.

(** ** Identifier derivation *)

Lemma re_sub_char_idem c :
  (fun c => if alnum c then c else underscore)
    (if alnum c then c else underscore)
  = (if alnum c then c else underscore).
Proof. simpl. destruct (alnum c) eqn:E; [by rewrite E | reflexivity]. Qed.

Lemma re_sub_idem name : re_sub_non_alnum (re_sub_non_alnum name) = re_sub_non_alnum name.
Proof.
  unfold re_sub_non_alnum. rewrite map_map.
  apply map_ext. intros c. apply re_sub_char_idem.
Qed.

Lemma re_sub_ident name : Forall ident_char (re_sub_non_alnum name).
Proof.
  unfold re_sub_non_alnum. apply Forall_map, Forall_forall. intros c _.
  unfold ident_char. simpl. destruct (alnum c) eqn:E; [by left | by right].
Qed.

Lemma re_sub_length name : length (re_sub_non_alnum name) = length name.
Proof. unfold re_sub_non_alnum. apply length_map. Qed.

(** What the derivation yields on a name that has a first character: the
    identifier is the name with every character outside [[A-Za-z0-9]]
    replaced by an underscore, behind [sheet_] when that begins with a
    digit; it is not empty, does not begin with a digit, is made of
    letters, digits and underscores, and derives to itself. *)
Lemma clean_table_name_ok (name : str) :
  name <> [] ->
  exists id,
    _clean_table_name name = Ok id
    /\ (id = re_sub_non_alnum name \/ id = lit "sheet_" ++ re_sub_non_alnum name)
    /\ id <> []
    /\ (forall c rest, id = c :: rest -> isdigit c = false)
    /\ Forall ident_char id
    /\ _clean_table_name id = Ok id.
Proof.
  intros Hne. unfold _clean_table_name.
  pose proof (re_sub_idem name) as Hidem.
  pose proof (re_sub_ident name) as Hid.
  destruct (re_sub_non_alnum name) as [|c0 clean] eqn:E.
  { destruct name; [done | discriminate]. }
  destruct (isdigit c0) eqn:Hd.
  - exists (lit "sheet_" ++ c0 :: clean). split; [done|].
    split; [by right|]. split; [done|].
    split; [intros c rest [= <- _]; reflexivity|].
    split.
    + apply Forall_app. split; [|done].
      repeat (constructor; [first [by left | by right]|]). constructor.
    + assert (Hs : re_sub_non_alnum (lit "sheet_" ++ c0 :: clean)
                   = lit "sheet_" ++ c0 :: clean).
      { unfold re_sub_non_alnum at 1. rewrite map_app.
        fold (re_sub_non_alnum (c0 :: clean)). by rewrite Hidem. }
      rewrite Hs. reflexivity.
  - exists (c0 :: clean). split; [done|].
    split; [by left|]. split; [done|].
    split; [intros c rest [= <- _]; done|].
    split; [done|].
    rewrite Hidem. by rewrite Hd.
Qed.

(** C4: on the empty display name the derivation yields no identifier at
    all: reading the first character of the (empty) cleaned name raises
    [IndexError]. *)
Theorem clean_table_name_empty :
  _clean_table_name (lit "")
  = Raise (IndexError (lit "string index out of range")).
Proof. reflexivity. Qed.

(** ** The tabular store *)

Lemma dict_get_set {V} (k : str) (v : V) (d : dict V) :
  dict_get k (dict_set k v d) = Some v.
Proof.
  induction d as [|[k' v'] d IH]; simpl.
  - by rewrite decide_True.
  - destruct (decide (k = k')) as [->|Hne]; simpl.
    + by rewrite decide_True.
    + by rewrite decide_False.
Qed.

Lemma dict_get_set_ne {V} (k k2 : str) (v : V) (d : dict V) :
  k2 <> k -> dict_get k2 (dict_set k v d) = dict_get k2 d.
Proof.
  intros Hne. induction d as [|[k' v'] d IH]; simpl.
  - by rewrite decide_False.
  - destruct (decide (k = k')) as [->|Hk]; simpl.
    + by rewrite !decide_False.
    + destruct (decide (k2 = k')); [done | apply IH].
Qed.

Lemma dict_keys_set {V} (k : str) (v : V) (d : dict V) :
  dict_keys (dict_set k v d)
  = if decide (k ∈ dict_keys d) then dict_keys d else dict_keys d ++ [k].
Proof.
  induction d as [|[k' v'] d IH].
  - reflexivity.
  - cbn [dict_set]. destruct (decide (k = k')) as [->|Hk].
    + unfold dict_keys. cbn [map fst].
      rewrite decide_True by apply list_elem_of_here. done.
    + unfold dict_keys in *. cbn [map fst]. rewrite IH.
      destruct (decide (k ∈ map fst d)) as [Hin|Hin].
      * rewrite decide_True by (by apply list_elem_of_further). done.
      * rewrite decide_False; [done|].
        intros [?|?]%elem_of_cons; done.
Qed.

(** What [add_sheet] does when the identifier is derived and the engine
    takes the write: the registry holds the new entry (derived identifier,
    column list, data) under the display name, in place of an older entry
    of that name; the backend holds the data under the derived identifier,
    in place of an older table of that identifier; every other registry
    entry and backend table is as before. *)
Lemma add_sheet_ok (writer : SqlWriter) (sheet_name id : str) (df : DataFrame)
    (self : ExcelDatabase) :
  _clean_table_name sheet_name = Ok id ->
  writer id df (conn self) = None ->
  exists self',
    add_sheet writer sheet_name df self = (Ok tt, self')
    /\ dict_get sheet_name (sheets self')
       = Some {| clean_name := id; columns := column_labels df; data := df |}
    /\ conn self' !! id = Some df
    /\ (forall other, other <> sheet_name ->
          dict_get other (sheets self') = dict_get other (sheets self))
    /\ (forall id', id' <> id -> conn self' !! id' = conn self !! id')
    /\ dict_keys (sheets self')
       = (if decide (sheet_name ∈ dict_keys (sheets self))
          then dict_keys (sheets self)
          else dict_keys (sheets self) ++ [sheet_name]).
Proof.
  intros Hid Hw. unfold add_sheet, to_sql. rewrite Hid, Hw. eexists.
  split; [done|]. simpl.
  split; [apply dict_get_set|].
  split; [apply lookup_insert_eq|].
  split; [intros other Ho; by apply dict_get_set_ne|].
  split; [intros id' Hi; by apply lookup_insert_ne|].
  apply dict_keys_set.
Qed.

(** What [add_sheet] does when the engine refuses the write: the
    exception of the engine is raised after the registry has been
    written, so the display name is registered all the same. *)
Lemma add_sheet_refused (writer : SqlWriter) (sheet_name id : str)
    (df : DataFrame) (self : ExcelDatabase) (e : exn)
    (c' : gmap str DataFrame) :
  _clean_table_name sheet_name = Ok id ->
  writer id df (conn self) = Some (e, c') ->
  add_sheet writer sheet_name df self
  = (Raise e,
     {| sheets :=
          dict_set sheet_name
            {| clean_name := id; columns := column_labels df; data := df |}
            (sheets self);
        conn := c' |}).
Proof. intros Hid Hw. unfold add_sheet, to_sql. by rewrite Hid, Hw. Qed.

(** Two display names with one identifier, with an engine that takes
    every write: both stay registered, and the backend keeps the data of
    the one added last. *)
Lemma add_sheet_collision (df1 df2 : DataFrame) :
  exists self,
    snd (add_sheet accepting (lit "Q1 2024") df1 ExcelDatabase_init) = self
    /\ dict_keys (sheets (snd (add_sheet accepting (lit "Q1-2024") df2 self)))
       = [lit "Q1 2024"; lit "Q1-2024"]
    /\ conn (snd (add_sheet accepting (lit "Q1-2024") df2 self)) !! lit "Q1_2024"
       = Some df2
    /\ clean_name <$> dict_get (lit "Q1 2024")
                        (sheets (snd (add_sheet accepting (lit "Q1-2024") df2 self)))
       = Some (lit "Q1_2024").
Proof.
  eexists. split; [reflexivity|]. split; [reflexivity|].
  split; [|reflexivity]. simpl. apply lookup_insert_eq.
Qed.

(** C9: under the empty display name [add_sheet] registers nothing and
    writes nothing: the derivation of the identifier raises [IndexError]
    before the registry or the backend is touched. *)
Theorem add_sheet_empty_name (writer : SqlWriter) (df : DataFrame)
    (self : ExcelDatabase) :
  add_sheet writer (lit "") df self
  = (Raise (IndexError (lit "string index out of range")), self).
Proof. reflexivity. Qed.

(** ** Provider construction *)

Lemma Provider_init_cases kind environ api_key :
  match effective_key kind environ api_key with
  | None | Some [] =>
      exists msg, Provider_init kind environ api_key = Raise (ValueError msg)
  | Some k =>
      exists p, Provider_init kind environ api_key = Ok p /\ credential p = k
  end.
Proof.
  unfold effective_key, Provider_init, OpenAIProvider_init, GeminiProvider_init,
    OpenRouterProvider_init.
  destruct kind; (destruct api_key as [[|c k]|];
    [ | | cbn [env_var]; match goal with |- context [?m !! ?k] => destruct (m !! k) as [[|c k']|] end ]);
    simpl; eauto.
Qed.

(** C8, the claim as stated fails: an explicit credential that is the
    empty string makes construction fail although the environment
    variable holds a credential. *)
Lemma provider_init_empty_argument_ignores_environment :
  Provider_init KOpenAI {[ lit "OPENAI_API_KEY" := lit "sk-from-env" ]} (Some (lit ""))
  = Raise (ValueError (lit "OpenAI API key is required. Please provide it through the UI."))
  /\ is_ok (Provider_init KOpenAI {[ lit "OPENAI_API_KEY" := lit "sk-from-env" ]} None)
     = true.
Proof.
  split; [reflexivity | vm_compute; reflexivity].
Qed.

(** C8, as the code has it.  For every variant, construction fails
    exactly when the credential it decides on is missing or empty: that
    is the argument whenever an argument is passed (the empty string
    included), and the value of the variant's environment variable only
    when no argument is passed.  The failure is a [ValueError]; with an
    argument the environment plays no part; on success the provider holds
    the credential decided on. *)
Theorem provider_init_credential (kind : ProviderKind) (environ : Environ)
    (api_key : option str) :
  (is_ok (Provider_init kind environ api_key) = false
   <-> api_key = Some []
       \/ (api_key = None
           /\ (environ !! env_var kind = None
               \/ environ !! env_var kind = Some [])))
  /\ (forall e, Provider_init kind environ api_key = Raise e ->
        exists msg, e = ValueError msg)
  /\ (forall k environ',
        Provider_init kind environ (Some k) = Provider_init kind environ' (Some k))
  /\ (forall p, Provider_init kind environ api_key = Ok p ->
        effective_key kind environ api_key = Some (credential p)
        /\ credential p <> []).
Proof.
  assert (Henv : forall k environ',
            Provider_init kind environ (Some k)
            = Provider_init kind environ' (Some k))
    by (intros; by destruct kind).
  pose proof (Provider_init_cases kind environ api_key) as H.
  unfold effective_key in *.
  destruct api_key as [[|c k]|];
    [ | | destruct (environ !! env_var kind) as [[|c k]|] eqn:E ];
    destruct H as (x & H);
    try match type of H with _ /\ _ => destruct H as [H Hk] end;
    rewrite H; simpl; (split; [|split; [|split]]);
    try (split; intros);
    intros; simplify_eq; eauto;
    try (intuition congruence).
Qed.



(** ** Answer generation *)

Lemma substring_mid (a b c : str) : substring b (a ++ b ++ c).
Proof. by exists a, c. Qed.

Lemma result_str_of_marker (to_string : DataFrame -> str) (r : option DataFrame) :
  r = None \/ (exists df, r = Some df /\ nrows df = 0) ->
  result_str_of to_string r = no_results_marker.
Proof.
  intros [->|(df & -> & Hn)]; [reflexivity|].
  unfold result_str_of, df_empty. rewrite Hn. reflexivity.
Qed.

Lemma result_str_of_rendering (to_string : DataFrame -> str) (df : DataFrame) :
  0 < nrows df -> df_columns df <> [] ->
  result_str_of to_string (Some df) = to_string df.
Proof.
  intros Hn Hc. unfold result_str_of, df_empty.
  destruct (nrows df) as [|n]; [lia|].
  destruct (df_columns df); [congruence | reflexivity].
Qed.

Lemma response_prompt_embeds query result_str context_json :
  substring result_str (response_prompt query result_str context_json).
Proof.
  unfold response_prompt.
  rewrite (app_assoc _ query), (app_assoc _ (lit _)).
  apply substring_mid.
Qed.

(** C7: in every variant, when the result is absent or has zero rows the
    prompt sent to the model is the template filled with the marker
    [No results found]; when the result has rows (and, as every query
    result, columns) it is the template filled with the rendering of the
    result. *)
Theorem generate_response_renders_result
    (transport : Transport) (json_dumps_context : Context -> Result str)
    (to_string : DataFrame -> str) (self : Provider) (past : list Event)
    (query : str) (sql_result : option DataFrame) (context : Context) :
  let sent result_str :=
    and_then (json_dumps_context context) (fun context_json =>
    and_then
      (transport past
         (request_of self response_system (3 # 10)%Q
            (response_prompt query result_str context_json)))
      (fun content => Ok (strip content))) in
  (sql_result = None \/ (exists df, sql_result = Some df /\ nrows df = 0) ->
   Provider_generate_response transport json_dumps_context to_string
     self past query sql_result context = sent no_results_marker)
  /\ (forall df, sql_result = Some df -> 0 < nrows df -> df_columns df <> [] ->
      Provider_generate_response transport json_dumps_context to_string
        self past query sql_result context = sent (to_string df))
  /\ (forall result_str context_json,
        req_prompt (request_of self response_system (3 # 10)%Q
                      (response_prompt query result_str context_json))
        = response_prompt query result_str context_json
        /\ substring result_str (response_prompt query result_str context_json)).
Proof.
  intros sent. split; [|split].
  - intros H. unfold Provider_generate_response.
    rewrite (result_str_of_marker to_string sql_result H). reflexivity.
  - intros df -> Hn Hc. unfold Provider_generate_response.
    rewrite (result_str_of_rendering to_string df Hn Hc). reflexivity.
  - intros r js. split; [destruct self; reflexivity|].
    apply response_prompt_embeds.
Qed.

(** ** The pipeline *)


Lemma fix_prompt_embeds sql_query error_message schema_str :
  substring sql_query (fix_prompt sql_query error_message schema_str)
  /\ substring error_message (fix_prompt sql_query error_message schema_str)
  /\ substring schema_str (fix_prompt sql_query error_message schema_str).
Proof.
  unfold fix_prompt. split; [|split].
  - apply substring_mid.
  - rewrite (app_assoc _ sql_query), (app_assoc _ (lit _)). apply substring_mid.
  - rewrite (app_assoc _ sql_query), (app_assoc _ (lit _)),
      (app_assoc _ error_message), (app_assoc _ (lit _)).
    apply substring_mid.
Qed.

(** One step of a run: unfold the monad and the calls, reduce what is
    applied. *)
Ltac run_step :=
  repeat (progress (
    unfold bind, get_schema, call_generate_sql, try, execute_query,
      _fix_sql_query, call_generate_response, ret, lift, log;
    cbv beta iota zeta; cbn [db rng trace conn sheets])).

Ltac norm_trace := rewrite <- ?app_assoc; cbn [app].

(** Case analysis on the outcome the right-hand side branches on. *)
Ltac case_outcome :=
  match goal with
  | |- _ = match ?x with _ => _ end => destruct x
  end.

Section Run.

Variable engine : SqlEngine.
Variable llm_provider : LLMProvider.
Variable repr_schema : Schema -> str.
Variable question : str.
Variable w : World.
Variable schema : Schema.
Variable g : Rng.
Variable raw1 : str.
Variable e1 : exn.
Variable c1 : gmap str DataFrame.

Hypothesis Hschema : _get_database_schema (db w) (rng w) = (Ok schema, g).
Hypothesis Hgen : generate_sql llm_provider (trace w) question schema = Ok raw1.
Hypothesis Hexec :
  engine (_clean_sql_query raw1) (conn (db w)) = (Raise e1, c1).

Let failed : str := _clean_sql_query raw1.
Let prompt : str := fix_prompt failed (str_exn e1) (repr_schema schema).
Let past : list Event :=
  trace w ++ [EvGenerateSql question schema; EvExecute failed].

Lemma query_first_failure :
  query engine llm_provider repr_schema question w
  = match generate_sql llm_provider past prompt schema with
    | Raise e =>
        (Raise e,
         {| db := {| sheets := sheets (db w); conn := c1 |}; rng := g;
            trace := past ++ [EvGenerateSql prompt schema] |})
    | Ok raw2 =>
        let fixed := _clean_sql_query raw2 in
        let past2 := past ++ [EvGenerateSql prompt schema; EvExecute fixed] in
        match engine fixed c1 with
        | (Raise e2, c2) =>
            (Raise e2,
             {| db := {| sheets := sheets (db w); conn := c2 |}; rng := g;
                trace := past2 |})
        | (Ok results, c2) =>
            let context :=
              {| original_query := question; ctx_sql_query := fixed;
                 ctx_schema := schema |} in
            let w' :=
              {| db := {| sheets := sheets (db w); conn := c2 |}; rng := g;
                 trace := past2 ++ [EvGenerateResponse question results context] |} in
            match generate_response llm_provider past2 question (Some results) context with
            | Ok answer => (Ok (fixed, answer), w')
            | Raise e => (Raise e, w')
            end
        end
    end.
Proof.
  subst past prompt failed. unfold query.
  run_step. rewrite Hschema.
  run_step. rewrite Hgen.
  run_step. rewrite Hexec.
  run_step. norm_trace.
  case_outcome; [|reflexivity].
  run_step. norm_trace.
  case_outcome. case_outcome; run_step; norm_trace; [|reflexivity].
  case_outcome; reflexivity.
Qed.

End Run.

(** C1: when the execution of the first sanitized query fails, the
    pipeline asks the provider for a query once more, and only once: on
    the repair prompt, which carries the failed query, the error message
    and the schema.  The answer to that call is sanitized and executed,
    nothing else is executed, and when that execution succeeds (and an
    answer is generated) the pair returned holds the sanitized repaired
    text. *)
Theorem query_repairs_once
    (engine : SqlEngine) (llm_provider : LLMProvider)
    (repr_schema : Schema -> str) (question : str) (w : World)
    (schema : Schema) (g : Rng) (raw1 : str) (e1 : exn)
    (c1 : gmap str DataFrame) :
  _get_database_schema (db w) (rng w) = (Ok schema, g) ->
  generate_sql llm_provider (trace w) question schema = Ok raw1 ->
  engine (_clean_sql_query raw1) (conn (db w)) = (Raise e1, c1) ->
  let failed := _clean_sql_query raw1 in
  let prompt := fix_prompt failed (str_exn e1) (repr_schema schema) in
  let past := trace w ++ [EvGenerateSql question schema; EvExecute failed] in
  let run := query engine llm_provider repr_schema question w in
  (substring failed prompt
   /\ substring (str_exn e1) prompt
   /\ substring (repr_schema schema) prompt)
  /\ (exists rest,
        trace (snd run) = past ++ EvGenerateSql prompt schema :: rest
        /\ Forall (fun ev => is_generate_sql ev = false) rest
        /\ count_events is_execute rest <= 1)
  /\ (forall raw2,
        generate_sql llm_provider past prompt schema = Ok raw2 ->
        let fixed := _clean_sql_query raw2 in
        (exists rest,
           trace (snd run)
           = past ++ EvGenerateSql prompt schema :: EvExecute fixed :: rest
           /\ Forall (fun ev => is_generate_sql ev = false
                                /\ is_execute ev = false) rest)
        /\ (forall results c2 answer,
              engine fixed c1 = (Ok results, c2) ->
              generate_response llm_provider
                (past ++ [EvGenerateSql prompt schema; EvExecute fixed])
                question (Some results)
                {| original_query := question; ctx_sql_query := fixed;
                   ctx_schema := schema |} = Ok answer ->
              fst run = Ok (fixed, answer))).
Proof.
  intros Hschema Hgen Hexec failed prompt past run.
  pose proof (query_first_failure engine llm_provider repr_schema question w
                schema g raw1 e1 c1 Hschema Hgen Hexec) as Hrun.
  cbv zeta in Hrun. fold failed prompt past run in Hrun.
  split; [apply fix_prompt_embeds|]. split.
  - destruct (generate_sql llm_provider past prompt schema) as [raw2|e].
    + destruct (engine (_clean_sql_query raw2) c1) as [[results|e2] c2].
      * destruct (generate_response _ _ _ _ _); rewrite Hrun; cbn [snd trace];
          norm_trace; eexists; (split; [reflexivity|]);
          (split; [repeat constructor | cbn; lia]).
      * rewrite Hrun. cbn [snd trace]. norm_trace.
        eexists. split; [reflexivity|].
        split; [repeat constructor | cbn; lia].
    + rewrite Hrun. cbn [snd trace]. exists [].
      split; [reflexivity|]. split; [constructor | cbn; lia].
  - intros raw2 Hraw2 fixed. rewrite Hraw2 in Hrun. fold fixed in Hrun.
    split.
    + destruct (engine fixed c1) as [[results|e2] c2].
      * destruct (generate_response _ _ _ _ _); rewrite Hrun; cbn [snd trace];
          norm_trace; eexists; (split; [reflexivity|]);
          repeat constructor.
      * rewrite Hrun. cbn [snd trace]. norm_trace.
        exists []. split; [reflexivity | constructor].
    + intros results c2 answer Hres Hans.
      rewrite Hres in Hrun. cbv zeta in Hrun. rewrite Hans in Hrun.
      by rewrite Hrun.
Qed.

(** C2: when the repaired query fails as well, the call raises the
    exception of that second failure; the trace ends with the second
    execution (no third one, and no answer generation), and no result
    pair is returned. *)
Theorem query_second_failure_propagates
    (engine : SqlEngine) (llm_provider : LLMProvider)
    (repr_schema : Schema -> str) (question : str) (w : World)
    (schema : Schema) (g : Rng) (raw1 raw2 : str) (e1 e2 : exn)
    (c1 c2 : gmap str DataFrame) :
  _get_database_schema (db w) (rng w) = (Ok schema, g) ->
  generate_sql llm_provider (trace w) question schema = Ok raw1 ->
  engine (_clean_sql_query raw1) (conn (db w)) = (Raise e1, c1) ->
  let failed := _clean_sql_query raw1 in
  let prompt := fix_prompt failed (str_exn e1) (repr_schema schema) in
  let past := trace w ++ [EvGenerateSql question schema; EvExecute failed] in
  generate_sql llm_provider past prompt schema = Ok raw2 ->
  engine (_clean_sql_query raw2) c1 = (Raise e2, c2) ->
  query engine llm_provider repr_schema question w
  = (Raise e2,
     {| db := {| sheets := sheets (db w); conn := c2 |};
        rng := g;
        trace := trace w ++ [EvGenerateSql question schema; EvExecute failed;
                             EvGenerateSql prompt schema;
                             EvExecute (_clean_sql_query raw2)] |}).
Proof.
  intros Hschema Hgen Hexec failed prompt past Hraw2 Hexec2.
  pose proof (query_first_failure engine llm_provider repr_schema question w
                schema g raw1 e1 c1 Hschema Hgen Hexec) as Hrun.
  cbv zeta in Hrun. fold failed prompt past in Hrun.
  rewrite Hraw2, Hexec2 in Hrun. rewrite Hrun.
  subst past. by rewrite <- app_assoc.
Qed.

(** The scenario of the specification: the first query names a column
    that does not exist, the repaired one is right and is the one
    returned. *)
Lemma query_repairs_once_witness :
  fst (query stub_engine stub_provider stub_repr
         (lit "What is the total amount?") sales_world)
  = Ok (lit "SELECT SUM(amount) FROM Sales", lit "The total amount is 250.").
Proof.
  refine (proj2 (proj2 (proj2
    (query_repairs_once stub_engine stub_provider stub_repr
       (lit "What is the total amount?") sales_world sales_schema []
       (lit "```sql
SELECT SUM(total) FROM Sales
```") no_such_column (conn (db sales_world)) _ _ _))
    (lit "SELECT SUM(amount) FROM Sales") _)
    total (conn (db sales_world)) (lit "The total amount is 250.") _ _);
    reflexivity.
Defined.

(** The same table with a provider that repeats its mistake. *)
Lemma query_second_failure_propagates_witness :
  fst (query stub_engine stubborn_provider stub_repr
         (lit "What is the total amount?") sales_world)
  = Raise no_such_column.
Proof.
  rewrite (query_second_failure_propagates stub_engine stubborn_provider
             stub_repr (lit "What is the total amount?") sales_world
             sales_schema [] (lit "SELECT SUM(total) FROM Sales")
             (lit "SELECT SUM(total) FROM Sales")
             no_such_column no_such_column
             (conn (db sales_world)) (conn (db sales_world)));
    reflexivity.
Defined.

(** A result without rows, with a model that answers with its prompt. *)
Lemma generate_response_renders_result_witness :
  Provider_generate_response echo_transport (fun _ => Ok (lit "{}"))
    (fun _ => lit "Empty DataFrame")
    (Gemini {| gemini_api_key := lit "key" |}) []
    (lit "Who sold nothing?") (Some sales_no_rows) sales_context
  = Ok (strip (response_prompt (lit "Who sold nothing?") no_results_marker
                 (lit "{}"))).
Proof.
  exact (proj1
    (generate_response_renders_result echo_transport (fun _ => Ok (lit "{}"))
       (fun _ => lit "Empty DataFrame")
       (Gemini {| gemini_api_key := lit "key" |}) []
       (lit "Who sold nothing?") (Some sales_no_rows) sales_context)
    (or_intror (ex_intro _ sales_no_rows (conj eq_refl eq_refl)))).
Defined.

(** ** The schema snapshot *)

(** *** Where the snapshot is produced *)

Lemma column_type_of_cases dtype_str :
  column_type_of dtype_str ∈
    [lit "INTEGER"; lit "REAL"; lit "DATETIME"; lit "TEXT"].
Proof.
  unfold column_type_of.
  repeat match goal with |- context [if ?b then _ else _] => destruct b end;
    set_solver.
Qed.

Lemma choice_spec n pool g :
  n <= length pool ->
  length (choice n pool g).1 = n /\ (choice n pool g).1 ⊆+ pool.
Proof.
  revert pool g. induction n as [|n IH]; intros pool g Hn; simpl.
  - split; [done | apply submseteq_nil_l].
  - destruct (next_draw g) as [d g1].
    assert (Hi : d mod length pool < length pool)
      by (apply Nat.mod_upper_bound; lia).
    destruct (lookup_lt_is_Some_2 _ _ Hi) as [x Hx]. rewrite Hx.
    assert (Hlen : n <= length (delete (d mod length pool) pool)).
    { rewrite length_delete by eauto. lia. }
    destruct (IH (delete (d mod length pool) pool) g1 Hlen) as [IH1 IH2].
    destruct (choice n (delete (d mod length pool) pool) g1) as [xs g2].
    simpl in *. split; [lia|].
    rewrite (delete_Permutation pool _ x Hx). by apply submseteq_skip.
Qed.

Lemma sample_ok n vs g :
  n <= length vs ->
  exists xs g', sample n vs g = (Ok xs, g') /\ length xs = n /\ xs ⊆+ vs.
Proof.
  intros Hn. unfold sample.
  assert (Hgo : (length vs =? 0) && (0 <? n) = false).
  { destruct (Nat.eqb_spec (length vs) 0) as [H0|_]; [|done].
    destruct (Nat.ltb_spec 0 n) as [?|_]; [lia | done]. }
  rewrite Hgo.
  destruct (Nat.ltb_spec (length vs) n) as [?|_]; [lia|].
  destruct (choice_spec n vs g Hn) as [H1 H2].
  destruct (choice n vs g) as [xs g']. by exists xs, g'.
Qed.

Lemma filter_unique {A} (f : A -> str) (l : list A) (s : A) :
  NoDup (map f l) -> s ∈ l -> filter (fun x => f x = f s) l = [s].
Proof.
  induction l as [|a l IH]; intros Hnd Hin; [by apply elem_of_nil in Hin|].
  apply NoDup_cons in Hnd as [Ha Hnd].
  assert (Hnone : forall t, f t ∉ map f l -> filter (fun x => f x = f t) l = []).
  { intros t Ht. clear -Ht. induction l as [|b l IHl]; [done|].
    apply not_elem_of_cons in Ht as [Hb Ht].
    rewrite filter_cons_False by done. by apply IHl. }
  apply elem_of_cons in Hin as [->|Hin].
  - rewrite filter_cons_True by done. by rewrite Hnone.
  - rewrite filter_cons_False.
    + by apply IH.
    + intros Heq. apply Ha. rewrite Heq. by apply list_elem_of_fmap_2.
Qed.

Lemma getitem_unique df s :
  NoDup (column_labels df) -> s ∈ df_columns df -> getitem df (col_name s) = Ok s.
Proof.
  intros Hnd Hin. unfold getitem.
  by rewrite (filter_unique col_name _ s Hnd Hin).
Qed.

Lemma column_info_ok df s g :
  getitem df (col_name s) = Ok s ->
  min 3 (max 1 (nrows df)) <= length (dropna (col_values s)) ->
  exists ci g', column_info df (col_name s) g = (Ok ci, g') /\ describes ci df s.
Proof.
  intros Hget Hpop. unfold column_info, bind, lift, ret. rewrite Hget.
  destruct (sample_ok _ _ g Hpop) as (xs & g' & -> & Hlen & Hsub).
  eexists _, g'. split; [reflexivity|]. by repeat split.
Qed.

Lemma mapM_column_info df cols g :
  Forall (fun s => getitem df (col_name s) = Ok s
                   /\ min 3 (max 1 (nrows df)) <= length (dropna (col_values s)))
    cols ->
  exists cis g',
    mapM (column_info df) (map col_name cols) g = (Ok cis, g')
    /\ Forall2 (fun ci s => describes ci df s) cis cols.
Proof.
  intros H. revert g. induction H as [|s cols [Hget Hpop] _ IH]; intros g.
  - by exists [], g.
  - destruct (column_info_ok df s g Hget Hpop) as (ci & g1 & Hci & Hd).
    destruct (IH g1) as (cis & g2 & Hcis & Hds).
    exists (ci :: cis), g2. split; [|by constructor].
    simpl. unfold bind at 1. rewrite Hci.
    unfold bind at 1. rewrite Hcis. reflexivity.
Qed.

Lemma columns_of_samplable df g :
  samplable df ->
  exists cis g',
    mapM (column_info df) (column_labels df) g = (Ok cis, g')
    /\ Forall2 (fun ci s => describes ci df s) cis (df_columns df).
Proof.
  intros [Hnd Hpop]. apply mapM_column_info.
  apply Forall_forall. intros s Hs. split.
  - by apply getitem_unique.
  - by apply (proj1 (Forall_forall _ _) Hpop).
Qed.

Lemma dict_get_None {V} (k : str) (d : dict V) :
  dict_get k d = None <-> k ∉ dict_keys d.
Proof.
  induction d as [|[k' v] d IH]; simpl.
  - split; [intros _; apply not_elem_of_nil | done].
  - unfold dict_keys in *. simpl. rewrite not_elem_of_cons.
    destruct (decide (k = k')); [split; [done | by intros [? _]]|].
    rewrite IH. tauto.
Qed.

Lemma dict_get_Some {V} (k : str) (v : V) (d : dict V) :
  dict_get k d = Some v -> (k, v) ∈ d.
Proof.
  induction d as [|[k' v'] d IH]; simpl; [done|].
  destruct (decide (k = k')) as [->|_].
  - intros [= ->]. apply list_elem_of_here.
  - intros H. by apply list_elem_of_further, IH.
Qed.

Lemma schema_loop_ok items acc g :
  NoDup (dict_keys items) ->
  Forall (fun item => samplable (data item.2)) items ->
  exists schema g',
    schema_loop items acc g = (Ok schema, g')
    /\ (forall name, name ∉ dict_keys items ->
          dict_get name schema = dict_get name acc)
    /\ (forall name info, (name, info) ∈ items ->
          exists ts, dict_get name schema = Some ts /\ table_describes ts info).
Proof.
  revert acc g.
  induction items as [|[k info] items IH]; intros acc g Hnd Hs.
  - exists acc, g. split; [done|]. split; [done|].
    intros name info' Hin. by apply elem_of_nil in Hin.
  - apply NoDup_cons in Hnd as [Hk Hnd]. apply Forall_cons in Hs as [Hdf Hs].
    destruct (columns_of_samplable (data info) g Hdf) as (cis & g1 & Hcis & Hd).
    set (ts := {| table_name := clean_name info; ts_columns := cis;
                  row_count := nrows (data info) |}).
    destruct (IH (dict_set k ts acc) g1 Hnd Hs) as (schema & g' & Hrun & Hout & Hin).
    exists schema, g'. split; [|split].
    + simpl. unfold bind. rewrite Hcis. exact Hrun.
    + intros name Hname. unfold dict_keys in Hname. simpl in Hname.
      apply not_elem_of_cons in Hname as [Hne Hname].
      rewrite Hout by done. by apply dict_get_set_ne.
    + intros name info' [[= -> ->]|Hmem]%elem_of_cons.
      * exists ts. split; [|by repeat split].
        rewrite Hout by done. apply dict_get_set.
      * by apply Hin.
Qed.

(** On a store whose tables all have distinct column labels and, in every
    column, at least [min(3, max(1, len(df)))] values that are not null,
    the snapshot is produced: it maps every registered display name, and
    no other name, to the storage identifier, the row count and, column by
    column and in order, the label, the type inferred from the dtype (one
    of INTEGER, REAL, DATETIME, TEXT) and [min(3, max(1, len(df)))] values
    sampled without replacement among those of the column that are not
    null. *)
Lemma get_database_schema_ok (database : ExcelDatabase) (g : Rng) :
  NoDup (dict_keys (sheets database)) ->
  Forall (fun item => samplable (data item.2)) (sheets database) ->
  exists schema g',
    _get_database_schema database g = (Ok schema, g')
    /\ (forall name, dict_get name (sheets database) = None ->
          dict_get name schema = None)
    /\ (forall name info, dict_get name (sheets database) = Some info ->
          exists ts, dict_get name schema = Some ts /\ table_describes ts info).
Proof.
  intros Hnd Hs.
  destruct (schema_loop_ok (sheets database) [] g Hnd Hs)
    as (schema & g' & Hrun & Hout & Hin).
  exists schema, g'. split; [done|]. split.
  - intros name Hnone. rewrite Hout; [done|]. by apply dict_get_None.
  - intros name info Hsome. by apply Hin, dict_get_Some.
Qed.

(** The registry never holds a display name twice. *)
Lemma add_sheet_keys_NoDup writer sheet_name df (self : ExcelDatabase) :
  NoDup (dict_keys (sheets self)) ->
  NoDup (dict_keys (sheets (add_sheet writer sheet_name df self).2)).
Proof.
  intros Hnd. unfold add_sheet.
  destruct (_clean_table_name sheet_name) as [id|e]; [|done].
  destruct (to_sql writer id df (conn self)) as [written conn'].
  simpl. rewrite dict_keys_set. case_decide; [done|].
  apply NoDup_app. split; [done|]. split; [|apply NoDup_singleton].
  intros x Hx ->%list_elem_of_singleton. done.
Qed.

(** C3: the snapshot is not produced for every store.  On a table with no
    row the sampling of a column raises [ValueError] for its empty
    population, and on a table one of whose columns has fewer values that
    are not null than [min(3, max(1, len(df)))] it raises [ValueError] for
    a sample larger than the population, whatever the random generator
    draws. *)
Theorem get_database_schema_small_population (g : Rng) :
  fst (_get_database_schema (store_of (lit "Sales") sales_no_rows) g)
  = Raise (ValueError
      (lit "a must be greater than 0 unless no samples are taken"))
  /\ fst (_get_database_schema (store_of (lit "Notes") notes) g)
     = Raise (ValueError
         (lit "Cannot take a larger sample than population when 'replace=False'")).
Proof. split; reflexivity. Qed.

(** * Further properties of the code *)

(** ** Identifier derivation, on names that have a first character *)

Lemma isdigit_after_re_sub c :
  isdigit (if alnum c then c else underscore) = in_range 48 57 c.
Proof. destruct c as [[] [] [] [] [] [] [] []]; reflexivity. Qed.

(** X1: the identifier of a display name with first character [c] is the
    name with every character outside [[A-Za-z0-9]] replaced by an
    underscore, behind [sheet_] exactly when [c] is one of the digits 0
    to 9.  It is not empty, does not begin with a digit, is made of
    letters, digits and underscores only, and is its own identifier. *)
Theorem clean_table_name_first_char (c : ascii) (rest : str) :
  exists id,
    _clean_table_name (c :: rest) = Ok id
    /\ id = (if in_range 48 57 c
             then lit "sheet_" ++ re_sub_non_alnum (c :: rest)
             else re_sub_non_alnum (c :: rest))
    /\ id <> []
    /\ (forall c' rest', id = c' :: rest' -> isdigit c' = false)
    /\ Forall ident_char id
    /\ _clean_table_name id = Ok id.
Proof.
  destruct (clean_table_name_ok (c :: rest)) as (id & Hid & _ & H); [done|].
  exists id. split; [done|]. split; [|done].
  unfold _clean_table_name in Hid. simpl in Hid.
  fold underscore in Hid. rewrite isdigit_after_re_sub in Hid.
  destruct (in_range 48 57 c); by injection Hid as <-.
Qed.

(** X2: a character outside [[A-Za-z0-9]] may be replaced by any other
    such character without changing the outcome of the derivation: the
    derivation does not tell such display names apart. *)
Theorem clean_table_name_forgets_specials (pre post : str) (c1 c2 : ascii) :
  alnum c1 = false -> alnum c2 = false ->
  _clean_table_name (pre ++ c1 :: post) = _clean_table_name (pre ++ c2 :: post).
Proof.
  intros H1 H2. unfold _clean_table_name, re_sub_non_alnum.
  rewrite !map_app. simpl. by rewrite H1, H2.
Qed.

Lemma clean_table_name_forgets_specials_witness :
  _clean_table_name (lit "Q1 2024") = _clean_table_name (lit "Q1-2024").
Proof.
  apply (clean_table_name_forgets_specials (lit "Q1") (lit "2024")
           " "%char "-"%char); reflexivity.
Defined.

(** ** The tabular store *)

Lemma dict_set_set {V} (k : str) (v1 v2 : V) (d : dict V) :
  dict_set k v2 (dict_set k v1 d) = dict_set k v2 d.
Proof.
  induction d as [|[k' v'] d IH]; simpl.
  - by rewrite decide_True.
  - destruct (decide (k = k')) as [->|Hne]; simpl.
    + by rewrite decide_True.
    + rewrite decide_False by done. by rewrite IH.
Qed.

(** X3: under a display name that has a first character the identifier
    is derived and the registry is written; what follows depends on the
    engine.  When it takes the write, [add_sheet] returns; afterwards the
    registry returns, for that name, the derived identifier, the column
    labels and the data, and the backend returns the data for the
    identifier; every other registry entry and backend table is as
    before, and the name is appended to the registry unless it was
    registered already, in which case it keeps its place.  When the
    engine refuses the write, [add_sheet] raises the engine's exception,
    and the name is registered all the same, with the backend as the
    engine left it. *)
Theorem add_sheet_registers (writer : SqlWriter) (c : ascii) (rest : str)
    (df : DataFrame) (self : ExcelDatabase) :
  let sheet_name := c :: rest in
  let entry id :=
    {| clean_name := id; columns := column_labels df; data := df |} in
  let self' := snd (add_sheet writer sheet_name df self) in
  exists id,
    _clean_table_name sheet_name = Ok id
    /\ dict_get sheet_name (get_all_sheet_info self') = Some (entry id)
    /\ (forall other, other <> sheet_name ->
          dict_get other (get_all_sheet_info self')
          = dict_get other (get_all_sheet_info self))
    /\ dict_keys (sheets self')
       = (if decide (sheet_name ∈ dict_keys (sheets self))
          then dict_keys (sheets self)
          else dict_keys (sheets self) ++ [sheet_name])
    /\ (writer id df (conn self) = None ->
        fst (add_sheet writer sheet_name df self) = Ok tt
        /\ conn self' !! id = Some df
        /\ (forall id', id' <> id -> conn self' !! id' = conn self !! id'))
    /\ (forall e c',
          writer id df (conn self) = Some (e, c') ->
          fst (add_sheet writer sheet_name df self) = Raise e
          /\ conn self' = c').
Proof.
  intros sheet_name entry self'.
  destruct (clean_table_name_ok sheet_name) as (id & Hid & _); [done|].
  exists id. split; [done|]. subst self' entry.
  destruct (writer id df (conn self)) as [[e c']|] eqn:Hw.
  - rewrite (add_sheet_refused writer sheet_name id df self e c' Hid Hw).
    cbn [fst snd sheets conn get_all_sheet_info].
    split; [apply dict_get_set|].
    split; [intros other Ho; by apply dict_get_set_ne|].
    split; [apply dict_keys_set|].
    split; [done|]. by intros e0 c0 [= <- <-].
  - destruct (add_sheet_ok writer sheet_name id df self Hid Hw)
      as (s' & -> & H1 & H2 & H3 & H4 & H5).
    cbn [fst snd get_all_sheet_info]. by repeat split.
Qed.

(** An engine that takes every write registers the table and stores it;
    one that refuses a frame without columns registers the sheet and
    raises. *)
Lemma add_sheet_registers_witness :
  fst (add_sheet accepting (lit "Sales") sales ExcelDatabase_init) = Ok tt
  /\ conn (snd (add_sheet accepting (lit "Sales") sales ExcelDatabase_init))
       !! lit "Sales" = Some sales
  /\ fst (add_sheet refusing_blank (lit "Sheet1") blank ExcelDatabase_init)
     = Raise (External (lit "OperationalError") (lit "syntax error"))
  /\ dict_keys (sheets (snd (add_sheet refusing_blank (lit "Sheet1") blank
                               ExcelDatabase_init)))
     = [lit "Sheet1"].
Proof.
  destruct (add_sheet_registers accepting "S"%char (lit "ales") sales
              ExcelDatabase_init) as (id & Hid & _ & _ & _ & Hok & _).
  injection Hid as <-.
  destruct Hok as (H1 & H2 & _); [reflexivity|].
  destruct (add_sheet_registers refusing_blank "S"%char (lit "heet1") blank
              ExcelDatabase_init) as (id & Hid & _ & _ & Hkeys & _ & Hno).
  injection Hid as <-.
  destruct (Hno (External (lit "OperationalError") (lit "syntax error")) ∅)
    as (H3 & _); [reflexivity|].
  by repeat split.
Defined.

(** X4: when the engine takes both writes, adding a table under a
    display name twice leaves nothing of the first: the store is the
    store before with the second entry under the name (at the place the
    name had, or at the end) and the second data under the identifier. *)
Theorem add_sheet_replaces (writer : SqlWriter) (sheet_name id : str)
    (df1 df2 : DataFrame) (self : ExcelDatabase) :
  _clean_table_name sheet_name = Ok id ->
  writer id df1 (conn self) = None ->
  writer id df2 (<[id := df1]> (conn self)) = None ->
  snd (add_sheet writer sheet_name df2
         (snd (add_sheet writer sheet_name df1 self)))
  = {| sheets :=
         dict_set sheet_name
           {| clean_name := id; columns := column_labels df2; data := df2 |}
           (sheets self);
       conn := <[id := df2]> (conn self) |}.
Proof.
  intros Hid H1 H2. unfold add_sheet, to_sql.
  rewrite Hid, H1. cbn [snd conn sheets]. rewrite H2. cbn [snd].
  by rewrite dict_set_set, insert_insert_eq.
Qed.

Lemma add_sheet_replaces_witness :
  snd (add_sheet accepting (lit "Sales") sales
         (snd (add_sheet accepting (lit "Sales") sales_no_rows
                 ExcelDatabase_init)))
  = {| sheets :=
         dict_set (lit "Sales")
           {| clean_name := lit "Sales"; columns := column_labels sales;
              data := sales |} [];
       conn := <[lit "Sales" := sales]> ∅ |}.
Proof.
  apply (add_sheet_replaces accepting (lit "Sales") (lit "Sales")
           sales_no_rows sales ExcelDatabase_init); reflexivity.
Defined.

(** X5: when two different display names derive one identifier and the
    engine takes both writes, both names are registered, each with its
    own data under the shared identifier, while the backend table of
    that identifier holds the data added last: the registry entry of the
    first name no longer describes what the backend holds. *)
Theorem add_sheet_shadows (writer : SqlWriter) (name1 name2 id : str)
    (df1 df2 : DataFrame) (self : ExcelDatabase) :
  name1 <> name2 ->
  _clean_table_name name1 = Ok id ->
  _clean_table_name name2 = Ok id ->
  writer id df1 (conn self) = None ->
  writer id df2 (<[id := df1]> (conn self)) = None ->
  let self' :=
    snd (add_sheet writer name2 df2 (snd (add_sheet writer name1 df1 self))) in
  dict_get name1 (sheets self')
  = Some {| clean_name := id; columns := column_labels df1; data := df1 |}
  /\ dict_get name2 (sheets self')
     = Some {| clean_name := id; columns := column_labels df2; data := df2 |}
  /\ conn self' !! id = Some df2.
Proof.
  intros Hne H1 H2 Hw1 Hw2 self'. subst self'. unfold add_sheet, to_sql.
  rewrite H1, Hw1. cbn [snd conn sheets]. rewrite H2, Hw2. cbn [snd conn sheets].
  split; [|split].
  - rewrite dict_get_set_ne by done. apply dict_get_set.
  - apply dict_get_set.
  - apply lookup_insert_eq.
Qed.

Lemma add_sheet_shadows_witness :
  let self' := snd (add_sheet accepting (lit "Q1-2024") notes
                      (snd (add_sheet accepting (lit "Q1 2024") sales
                              ExcelDatabase_init))) in
  dict_get (lit "Q1 2024") (sheets self')
  = Some {| clean_name := lit "Q1_2024"; columns := column_labels sales;
            data := sales |}
  /\ dict_get (lit "Q1-2024") (sheets self')
     = Some {| clean_name := lit "Q1_2024"; columns := column_labels notes;
               data := notes |}
  /\ conn self' !! lit "Q1_2024" = Some notes.
Proof.
  apply (add_sheet_shadows accepting (lit "Q1 2024") (lit "Q1-2024")
           (lit "Q1_2024"));
    [discriminate | reflexivity | reflexivity | reflexivity | reflexivity].
Defined.

Lemma dict_get_set_cases {V} (k k2 : str) (v v2 : V) (d : dict V) :
  dict_get k2 (dict_set k v d) = Some v2 ->
  (k2 = k /\ v2 = v) \/ (k2 <> k /\ dict_get k2 d = Some v2).
Proof.
  destruct (decide (k2 = k)) as [->|Hne].
  - rewrite dict_get_set. intros [= ->]. by left.
  - rewrite dict_get_set_ne by done. by right.
Qed.

Lemma store_consistent_init : store_consistent ExcelDatabase_init.
Proof. split; [apply NoDup_nil_2 | done]. Qed.

Lemma registry_consistent_add_sheet writer sheet_name df self :
  registry_consistent self ->
  registry_consistent (snd (add_sheet writer sheet_name df self)).
Proof.
  intros [Hnd Hreg]. split.
  - by apply add_sheet_keys_NoDup.
  - unfold add_sheet.
    destruct (_clean_table_name sheet_name) as [id|e] eqn:E; [|apply Hreg].
    destruct (to_sql writer id df (conn self)) as [written conn'].
    cbn [snd sheets]. intros name info Hget.
    apply dict_get_set_cases in Hget as [[-> ->]|[Hne Hget]]; [done|].
    by apply Hreg.
Qed.

Lemma store_consistent_add_sheet writer sheet_name df self :
  store_consistent self ->
  fst (add_sheet writer sheet_name df self) = Ok tt ->
  store_consistent (snd (add_sheet writer sheet_name df self)).
Proof.
  intros [Hnd Hreg] Hok. split; [by apply add_sheet_keys_NoDup|].
  revert Hok. unfold add_sheet, to_sql.
  destruct (_clean_table_name sheet_name) as [id|e] eqn:E; [|done].
  destruct (writer id df (conn self)) as [[e c']|]; [done|].
  intros _. cbn [snd sheets conn]. intros name info Hget.
  apply dict_get_set_cases in Hget as [[-> ->]|[Hne Hget]]; simpl.
  - split; [done|]. split; [done|]. rewrite lookup_insert_eq. by eexists.
  - destruct (Hreg name info Hget) as (H1 & H2 & H3).
    split; [done|]. split; [done|].
    destruct (decide (id = clean_name info)) as [->|Hid].
    + rewrite lookup_insert_eq. by eexists.
    + by rewrite lookup_insert_ne.
Qed.

(** X6: the fresh store is consistent.  On every path of [add_sheet],
    whether it returns or raises, the registry stays consistent: no
    display name is registered twice and every entry holds the identifier
    derived from its name and the column labels of its data.  When
    [add_sheet] returns, the store stays consistent as a whole: the
    backend has a table under the identifier of every registered name.
    When the engine refuses the write this last part is lost: the name is
    registered and [add_sheet] has raised (X3). *)
Theorem add_sheet_keeps_consistent :
  store_consistent ExcelDatabase_init
  /\ (forall writer sheet_name df self,
        registry_consistent self ->
        registry_consistent (snd (add_sheet writer sheet_name df self)))
  /\ (forall writer sheet_name df self,
        store_consistent self ->
        fst (add_sheet writer sheet_name df self) = Ok tt ->
        store_consistent (snd (add_sheet writer sheet_name df self))).
Proof.
  split; [apply store_consistent_init|]. split.
  - intros writer sheet_name df self. apply registry_consistent_add_sheet.
  - intros writer sheet_name df self. apply store_consistent_add_sheet.
Qed.

Lemma add_sheet_keeps_consistent_witness :
  store_consistent
    (snd (add_sheet accepting (lit "Q1-2024") notes
            (snd (add_sheet accepting (lit "Q1 2024") sales ExcelDatabase_init)))).
Proof.
  destruct add_sheet_keeps_consistent as (Hinit & _ & Hstep).
  apply Hstep; [apply Hstep; [apply Hinit | reflexivity] | reflexivity].
Defined.

(** ** Loading a workbook *)



Lemma add_sheets_consistent writer items self self' :
  add_sheets writer items self = (Ok tt, self') ->
  store_consistent self -> store_consistent self'.
Proof.
  revert self. induction items as [|[n df] items IH]; intros self Hrun Hs.
  - by injection Hrun as <-.
  - simpl in Hrun.
    pose proof (store_consistent_add_sheet writer n df self Hs) as H1.
    destruct (add_sheet writer n df self) as [[[]|e] s1]; [|done].
    by apply (IH s1), H1.
Qed.

Lemma add_sheet_inv writer n df self self' :
  add_sheet writer n df self = (Ok tt, self') ->
  exists id,
    _clean_table_name n = Ok id
    /\ self' = {| sheets :=
                    dict_set n
                      {| clean_name := id; columns := column_labels df;
                         data := df |} (sheets self);
                  conn := <[id := df]> (conn self) |}.
Proof.
  unfold add_sheet, to_sql.
  destruct (_clean_table_name n) as [id|e]; [|done].
  destruct (writer id df (conn self)) as [[e c']|]; [done|].
  intros [= <-]. by exists id.
Qed.

Lemma add_sheets_keys writer items self self' :
  add_sheets writer items self = (Ok tt, self') ->
  NoDup (map fst items) ->
  (forall n, n ∈ map fst items -> n ∉ dict_keys (sheets self)) ->
  dict_keys (sheets self') = dict_keys (sheets self) ++ map fst items.
Proof.
  revert self. induction items as [|[n df] items IH]; intros self Hrun Hnd Hfresh.
  - injection Hrun as <-. by rewrite app_nil_r.
  - simpl in *. apply NoDup_cons in Hnd as [Hn Hnd].
    destruct (add_sheet writer n df self) as [[[]|e] s1] eqn:E; [|done].
    apply add_sheet_inv in E as (id & Hid & ->).
    rewrite (IH _ Hrun Hnd).
    + simpl. rewrite dict_keys_set.
      rewrite decide_False by (apply Hfresh, list_elem_of_here).
      by rewrite <- app_assoc.
    + intros m Hm. simpl. rewrite dict_keys_set.
      rewrite decide_False by (apply Hfresh, list_elem_of_here).
      rewrite elem_of_app, list_elem_of_singleton.
      intros [Hin| ->]; [|by apply Hn].
      apply (Hfresh m); [by apply list_elem_of_further | done].
Qed.

Lemma add_sheets_spec writer items self self' :
  add_sheets writer items self = (Ok tt, self') ->
  NoDup (map fst items) ->
  (forall name, name ∉ map fst items ->
     dict_get name (sheets self') = dict_get name (sheets self))
  /\ (forall id,
        (forall name df, (name, df) ∈ items -> _clean_table_name name <> Ok id) ->
        conn self' !! id = conn self !! id)
  /\ (forall name df, (name, df) ∈ items ->
        exists id,
          _clean_table_name name = Ok id
          /\ dict_get name (sheets self')
             = Some {| clean_name := id; columns := column_labels df; data := df |}
          /\ ((forall name' df', (name', df') ∈ items -> name' <> name ->
                 _clean_table_name name' <> Ok id) ->
              conn self' !! id = Some df)).
Proof.
  revert self. induction items as [|[n df] items IH]; intros self Hrun Hnd.
  - injection Hrun as <-. split; [done|]. split; [done|].
    intros name d Hin. by apply elem_of_nil in Hin.
  - simpl in *. apply NoDup_cons in Hnd as [Hn Hnd].
    destruct (add_sheet writer n df self) as [[[]|e] s1] eqn:E; [|done].
    apply add_sheet_inv in E as (id0 & E & ->).
    destruct (IH _ Hrun Hnd) as (Hreg & Hback & Hitems). simpl in *.
    split; [|split].
    + intros name [Hne Hname]%not_elem_of_cons.
      rewrite Hreg by done. by apply dict_get_set_ne.
    + intros id Hid. rewrite Hback.
      * apply lookup_insert_ne. intros ->.
        by apply (Hid n df); [apply list_elem_of_here|].
      * intros name d Hin. by apply (Hid name d), list_elem_of_further.
    + intros name d [[= -> ->]|Hin]%elem_of_cons.
      * exists id0. split; [done|]. split.
        -- rewrite Hreg by done. apply dict_get_set.
        -- intros Hothers. rewrite Hback.
           ++ apply lookup_insert_eq.
           ++ intros name' d' Hin'.
              apply (Hothers name' d'); [by apply list_elem_of_further|].
              intros ->. apply Hn. by apply (list_elem_of_fmap_2 fst _ (n, d')).
      * destruct (Hitems name d Hin) as (id & Hid & Hget & Hconn).
        exists id. split; [done|]. split; [done|].
        intros Hothers. apply Hconn.
        intros name' d' Hin'. by apply (Hothers name' d'), list_elem_of_further.
Qed.




(** X8: the store of a kept upload (sheet names are the keys of a dict,
    hence distinct) is consistent and registers the sheets in the order of
    the workbook, each under its name with its derived identifier, column
    labels and data; the backend table of a sheet's identifier holds that
    sheet's data when no other sheet derives the same identifier. *)
Theorem load_workbook_registers (writer : SqlWriter)
    (workbook : dict DataFrame) (database : ExcelDatabase) :
  load_workbook writer workbook = Some database ->
  NoDup (dict_keys workbook) ->
  store_consistent database
  /\ dict_keys (sheets database) = dict_keys workbook
  /\ (forall name df, (name, df) ∈ workbook ->
        exists id,
          _clean_table_name name = Ok id
          /\ dict_get name (sheets database)
             = Some {| clean_name := id; columns := column_labels df; data := df |}
          /\ ((forall name' df', (name', df') ∈ workbook -> name' <> name ->
                 _clean_table_name name' <> Ok id) ->
              conn database !! id = Some df)).
Proof.
  unfold load_workbook. intros Hload Hnd.
  destruct (add_sheets writer workbook ExcelDatabase_init) as [[[]|e] s] eqn:E;
    [|done].
  injection Hload as ->. split; [|split].
  - by apply (add_sheets_consistent _ _ _ _ E), store_consistent_init.
  - rewrite (add_sheets_keys _ _ _ _ E Hnd); [done|].
    intros n _. apply not_elem_of_nil.
  - by apply (add_sheets_spec _ _ _ _ E Hnd).
Qed.

Lemma load_workbook_registers_witness :
  store_consistent (snd (add_sheets accepting quarters ExcelDatabase_init))
  /\ dict_keys (sheets (snd (add_sheets accepting quarters ExcelDatabase_init)))
     = dict_keys quarters.
Proof.
  destruct (load_workbook_registers accepting quarters
              (snd (add_sheets accepting quarters ExcelDatabase_init)))
    as (H1 & H2 & _); [reflexivity | | by split].
  repeat constructor; rewrite ?elem_of_cons, ?elem_of_nil;
    intros H; repeat destruct H as [H|H]; done.
Defined.

(** ** The pipeline, path by path *)

Lemma query_cases engine llm_provider repr_schema question w :
  query engine llm_provider repr_schema question w
  = query_outcome engine llm_provider repr_schema question w.
Proof.
  unfold query, query_outcome, answer_outcome, world_after.
  run_step.
  destruct (_get_database_schema (db w) (rng w)) as [[schema|e] g];
    run_step; [|reflexivity].
  destruct (generate_sql llm_provider (trace w) question schema) as [raw1|e];
    run_step; [|reflexivity].
  destruct (engine (_clean_sql_query raw1) (conn (db w))) as [[results|e1] c1];
    run_step; norm_trace.
  - destruct (generate_response _ _ _ _ _); norm_trace; reflexivity.
  - destruct (generate_sql llm_provider _ _ schema) as [raw2|e];
      run_step; norm_trace; [|reflexivity].
    destruct (engine (_clean_sql_query raw2) c1) as [[results|e2] c2];
      run_step; norm_trace; [|reflexivity].
    destruct (generate_response _ _ _ _ _); norm_trace; reflexivity.
Qed.

(** X9: when the snapshot cannot be built, or when the first query
    generation raises, [query] raises that exception at once: in the
    first case the provider is not asked at all, in the second nothing is
    executed; the store is as before. *)
Theorem query_fails_before_execution
    (engine : SqlEngine) (llm_provider : LLMProvider)
    (repr_schema : Schema -> str) (question : str) (w : World) :
  (forall e g,
     _get_database_schema (db w) (rng w) = (Raise e, g) ->
     query engine llm_provider repr_schema question w
     = (Raise e, {| db := db w; rng := g; trace := trace w |}))
  /\ (forall schema g e,
        _get_database_schema (db w) (rng w) = (Ok schema, g) ->
        generate_sql llm_provider (trace w) question schema = Raise e ->
        query engine llm_provider repr_schema question w
        = (Raise e, {| db := db w; rng := g;
                       trace := trace w ++ [EvGenerateSql question schema] |})).
Proof.
  split.
  - intros e g H. rewrite query_cases. unfold query_outcome. by rewrite H.
  - intros schema g e H1 H2. rewrite query_cases. unfold query_outcome.
    by rewrite H1, H2.
Qed.

Lemma query_fails_before_execution_witness :
  query stub_engine stub_provider stub_repr (lit "What is the total amount?")
    empty_world
  = (Raise (ValueError
       (lit "a must be greater than 0 unless no samples are taken")),
     empty_world)
  /\ query stub_engine unreachable_provider stub_repr
       (lit "What is the total amount?") sales_world
     = (Raise api_error,
        {| db := db sales_world; rng := [];
           trace := [EvGenerateSql (lit "What is the total amount?") sales_schema] |}).
Proof.
  split.
  - apply (proj1 (query_fails_before_execution stub_engine stub_provider
                    stub_repr (lit "What is the total amount?") empty_world)).
    reflexivity.
  - apply (proj2 (query_fails_before_execution stub_engine unreachable_provider
                    stub_repr (lit "What is the total amount?") sales_world)
             sales_schema [] api_error); reflexivity.
Defined.

(** X10: when the first sanitized query executes, no repair is asked for:
    the run is one query generation, one execution and one answer
    generation, on a context holding the question, the executed text and
    the schema; the pair returned holds the executed text and the
    answer. *)
Theorem query_first_try
    (engine : SqlEngine) (llm_provider : LLMProvider)
    (repr_schema : Schema -> str) (question : str) (w : World)
    (schema : Schema) (g : Rng) (raw1 answer : str) (results : DataFrame)
    (c1 : gmap str DataFrame) :
  _get_database_schema (db w) (rng w) = (Ok schema, g) ->
  generate_sql llm_provider (trace w) question schema = Ok raw1 ->
  engine (_clean_sql_query raw1) (conn (db w)) = (Ok results, c1) ->
  let sql := _clean_sql_query raw1 in
  let context :=
    {| original_query := question; ctx_sql_query := sql; ctx_schema := schema |} in
  generate_response llm_provider
    (trace w ++ [EvGenerateSql question schema; EvExecute sql])
    question (Some results) context = Ok answer ->
  query engine llm_provider repr_schema question w
  = (Ok (sql, answer),
     world_after w c1 g
       [EvGenerateSql question schema; EvExecute sql;
        EvGenerateResponse question results context]).
Proof.
  intros H1 H2 H3 sql context H4. rewrite query_cases.
  unfold query_outcome, answer_outcome. rewrite H1, H2, H3.
  cbv zeta. fold sql context. rewrite H4. norm_trace. reflexivity.
Qed.

Lemma query_first_try_witness :
  fst (query stub_engine able_provider stub_repr
         (lit "What is the total amount?") sales_world)
  = Ok (lit "SELECT SUM(amount) FROM Sales", lit "The total amount is 250.").
Proof.
  rewrite (query_first_try stub_engine able_provider stub_repr
             (lit "What is the total amount?") sales_world sales_schema []
             (lit "```sql
SELECT SUM(amount) FROM Sales
```") (lit "The total amount is 250.") total (conn (db sales_world)));
    reflexivity.
Defined.

(** X11: when the repair call itself raises, [query] raises that
    exception: the run ends after one execution, the failure of the first
    query is not reported, and no answer is generated. *)
Theorem query_repair_generation_fails
    (engine : SqlEngine) (llm_provider : LLMProvider)
    (repr_schema : Schema -> str) (question : str) (w : World)
    (schema : Schema) (g : Rng) (raw1 : str) (e1 e : exn)
    (c1 : gmap str DataFrame) :
  _get_database_schema (db w) (rng w) = (Ok schema, g) ->
  generate_sql llm_provider (trace w) question schema = Ok raw1 ->
  engine (_clean_sql_query raw1) (conn (db w)) = (Raise e1, c1) ->
  let failed := _clean_sql_query raw1 in
  let prompt := fix_prompt failed (str_exn e1) (repr_schema schema) in
  generate_sql llm_provider
    (trace w ++ [EvGenerateSql question schema; EvExecute failed])
    prompt schema = Raise e ->
  query engine llm_provider repr_schema question w
  = (Raise e,
     world_after w c1 g
       [EvGenerateSql question schema; EvExecute failed;
        EvGenerateSql prompt schema]).
Proof.
  intros H1 H2 H3 failed prompt H4. rewrite query_cases.
  unfold query_outcome. rewrite H1, H2, H3. cbv zeta.
  fold failed prompt. by rewrite H4.
Qed.

Lemma query_repair_generation_fails_witness :
  fst (query stub_engine flaky_provider stub_repr
         (lit "What is the total amount?") sales_world)
  = Raise api_error.
Proof.
  rewrite (query_repair_generation_fails stub_engine flaky_provider stub_repr
             (lit "What is the total amount?") sales_world sales_schema []
             (lit "SELECT SUM(total) FROM Sales") no_such_column api_error
             (conn (db sales_world)));
    reflexivity.
Defined.

(** X12: when answer generation raises after a query has executed,
    [query] raises that exception and returns no pair: the text of the
    query that ran does not reach the caller. *)
Theorem query_answer_generation_fails
    (engine : SqlEngine) (llm_provider : LLMProvider)
    (repr_schema : Schema -> str) (question : str) (w : World)
    (schema : Schema) (g : Rng) (raw1 : str) (results : DataFrame) (e : exn)
    (c1 : gmap str DataFrame) :
  _get_database_schema (db w) (rng w) = (Ok schema, g) ->
  generate_sql llm_provider (trace w) question schema = Ok raw1 ->
  engine (_clean_sql_query raw1) (conn (db w)) = (Ok results, c1) ->
  let sql := _clean_sql_query raw1 in
  let context :=
    {| original_query := question; ctx_sql_query := sql; ctx_schema := schema |} in
  generate_response llm_provider
    (trace w ++ [EvGenerateSql question schema; EvExecute sql])
    question (Some results) context = Raise e ->
  query engine llm_provider repr_schema question w
  = (Raise e,
     world_after w c1 g
       [EvGenerateSql question schema; EvExecute sql;
        EvGenerateResponse question results context]).
Proof.
  intros H1 H2 H3 sql context H4. rewrite query_cases.
  unfold query_outcome, answer_outcome. rewrite H1, H2, H3.
  cbv zeta. fold sql context. rewrite H4. norm_trace. reflexivity.
Qed.

Lemma query_answer_generation_fails_witness :
  fst (query stub_engine mute_provider stub_repr
         (lit "What is the total amount?") sales_world)
  = Raise api_error.
Proof.
  rewrite (query_answer_generation_fails stub_engine mute_provider stub_repr
             (lit "What is the total amount?") sales_world sales_schema []
             (lit "SELECT SUM(amount) FROM Sales") total api_error
             (conn (db sales_world)));
    reflexivity.
Defined.

(** ** The pipeline, on every path *)

(** X13: whatever the store, the provider and the engine do, one call of
    [query] only adds to the trace, asks for a query at most twice,
    executes no more queries than it asked for, asks for an answer at
    most once, and leaves the registry of the store as it was. *)
Theorem query_bounded
    (engine : SqlEngine) (llm_provider : LLMProvider)
    (repr_schema : Schema -> str) (question : str) (w : World) :
  let w' := snd (query engine llm_provider repr_schema question w) in
  exists events,
    trace w' = trace w ++ events
    /\ count_events is_generate_sql events <= 2
    /\ count_events is_execute events <= count_events is_generate_sql events
    /\ count_events is_generate_response events <= 1
    /\ sheets (db w') = sheets (db w).
Proof.
  cbv zeta. rewrite query_cases.
  unfold query_outcome, answer_outcome, world_after.
  destruct (_get_database_schema (db w) (rng w)) as [[schema|e] g];
    [|exists []; split; [symmetry; apply app_nil_r | cbn; repeat split; lia]].
  destruct (generate_sql llm_provider (trace w) question schema) as [raw1|e];
    [|eexists; split; [reflexivity | cbn; repeat split; lia]].
  destruct (engine (_clean_sql_query raw1) (conn (db w))) as [[results|e1] c1].
  - destruct (generate_response _ _ _ _ _);
      (eexists; split; [reflexivity | cbn; repeat split; lia]).
  - destruct (generate_sql llm_provider _ _ schema) as [raw2|e];
      [|eexists; split; [reflexivity | cbn; repeat split; lia]].
    destruct (engine (_clean_sql_query raw2) c1) as [[results|e2] c2];
      [|eexists; split; [reflexivity | cbn; repeat split; lia]].
    destruct (generate_response _ _ _ _ _);
      (eexists; split; [reflexivity | cbn; repeat split; lia]).
Qed.

(** X14: whenever [query] returns a pair, the snapshot of the call was
    built and the provider answered the question with a text [raw1]; the
    text returned is a sanitized provider answer without whitespace at
    its ends, and the run took one of two paths.  Either the sanitized
    [raw1] executed on the backend of the call, and it is the text
    returned; or it failed there, the provider answered the repair prompt
    made of it, of the failure message and of the schema with a text
    whose sanitized form executed on the backend the failure left, and
    that form is the text returned.  On both paths the execution of the
    returned text is the last one of the run, the store ends with the
    backend that execution left, and the answer is the provider's answer
    for the results of that execution, on a context holding the question,
    the returned text and the snapshot. *)
Theorem query_returns_last_executed
    (engine : SqlEngine) (llm_provider : LLMProvider)
    (repr_schema : Schema -> str) (question : str) (w : World)
    (sql answer : str) :
  fst (query engine llm_provider repr_schema question w) = Ok (sql, answer) ->
  exists schema g raw1 before raw c results c',
    let first := _clean_sql_query raw1 in
    let ask1 := EvGenerateSql question schema in
    let context :=
      {| original_query := question; ctx_sql_query := sql;
         ctx_schema := schema |} in
    _get_database_schema (db w) (rng w) = (Ok schema, g)
    /\ generate_sql llm_provider (trace w) question schema = Ok raw1
    /\ ((raw = raw1 /\ c = conn (db w) /\ before = [ask1])
        \/ (exists e1,
              let prompt := fix_prompt first (str_exn e1) (repr_schema schema) in
              engine first (conn (db w)) = (Raise e1, c)
              /\ generate_sql llm_provider (trace w ++ [ask1; EvExecute first])
                   prompt schema = Ok raw
              /\ before = [ask1; EvExecute first; EvGenerateSql prompt schema]))
    /\ sql = _clean_sql_query raw
    /\ strip sql = sql
    /\ engine sql c = (Ok results, c')
    /\ snd (query engine llm_provider repr_schema question w)
       = world_after w c' g
           (before ++ [EvExecute sql; EvGenerateResponse question results context])
    /\ generate_response llm_provider (trace w ++ before ++ [EvExecute sql])
         question (Some results) context = Ok answer.
Proof.
  rewrite query_cases. unfold query_outcome, answer_outcome.
  destruct (_get_database_schema (db w) (rng w)) as [[schema|e] g]; [|done].
  destruct (generate_sql llm_provider (trace w) question schema)
    as [raw1|e] eqn:G1; [|done].
  destruct (engine (_clean_sql_query raw1) (conn (db w)))
    as [[results|e1] c1] eqn:E1.
  - destruct (generate_response _ _ _ _ _) as [a|e] eqn:Ea; [|done].
    intros [= <- <-].
    exists schema, g, raw1, [EvGenerateSql question schema], raw1,
      (conn (db w)), results, c1.
    cbv zeta.
    split; [reflexivity|]. split; [exact G1|]. split; [by left|].
    split; [reflexivity|]. split; [apply clean_stripped|].
    split; [exact E1|]. split; [reflexivity | exact Ea].
  - cbv zeta.
    destruct (generate_sql llm_provider (trace w ++ _) _ schema)
      as [raw2|e] eqn:G2; [|done].
    destruct (engine (_clean_sql_query raw2) c1) as [[results|e2] c2] eqn:E2;
      [|done].
    destruct (generate_response _ _ _ _ _) as [a|e] eqn:Ea; [|done].
    intros [= <- <-].
    exists schema, g, raw1,
      [EvGenerateSql question schema; EvExecute (_clean_sql_query raw1);
       EvGenerateSql
         (fix_prompt (_clean_sql_query raw1) (str_exn e1) (repr_schema schema))
         schema],
      raw2, c1, results, c2.
    cbv zeta.
    split; [reflexivity|]. split; [exact G1|].
    split; [right; exists e1; split; [exact E1 | split; [exact G2 | reflexivity]]|].
    split; [reflexivity|]. split; [apply clean_stripped|].
    split; [exact E2|]. split; [reflexivity | exact Ea].
Qed.

(** The repaired run of the scenario: the first query fails on a column
    that does not exist, the repaired one is returned with its answer. *)
Lemma query_returns_last_executed_witness :
  fst (query stub_engine stub_provider stub_repr
         (lit "What is the total amount?") sales_world)
  = Ok (lit "SELECT SUM(amount) FROM Sales", lit "The total amount is 250.")
  /\ exists results c',
       stub_engine (lit "SELECT SUM(amount) FROM Sales") (conn (db sales_world))
       = (Ok results, c')
       /\ conn (db (snd (query stub_engine stub_provider stub_repr
                           (lit "What is the total amount?") sales_world)))
          = c'.
Proof.
  split; [reflexivity|].
  destruct (query_returns_last_executed stub_engine stub_provider stub_repr
              (lit "What is the total amount?") sales_world
              (lit "SELECT SUM(amount) FROM Sales")
              (lit "The total amount is 250.") eq_refl)
    as (schema & g & raw1 & before & raw & c & results & c' & H).
  cbv zeta in H.
  destruct H as (_ & _ & Hpath & _ & _ & Hrun & Hend & _).
  exists results, c'. split.
  - destruct Hpath as [(_ & -> & _)|(e1 & He1 & _)]; [exact Hrun|].
    unfold stub_engine in He1.
    destruct (decide _) in He1; [discriminate He1|].
    injection He1 as _ <-. exact Hrun.
  - by rewrite Hend.
Defined.

(** ** The concrete providers *)

Lemma sql_prompt_embeds schema_str query :
  substring schema_str (sql_prompt schema_str query)
  /\ substring query (sql_prompt schema_str query).
Proof.
  unfold sql_prompt. split.
  - apply substring_mid.
  - rewrite (app_assoc _ schema_str), (app_assoc _ (lit _)).
    apply substring_mid.
Qed.

Lemma req_prompt_request_of self system temperature prompt :
  req_prompt (request_of self system temperature prompt) = prompt.
Proof. by destruct self. Qed.

(** X15: [generate_sql] of every variant.  When the schema cannot be
    serialised it raises that exception, whatever the model would have
    said; otherwise it sends one request, whose prompt carries the
    serialised schema and the question, raises what the request raises
    and returns the model's text trimmed: a text it returns never has
    whitespace at its ends. *)
Theorem provider_generate_sql_behaviour
    (transport : Transport) (json_dumps_schema : Schema -> Result str)
    (self : Provider) (past : list Event) (query : str)
    (database_schema : Schema) :
  let run :=
    Provider_generate_sql transport json_dumps_schema self past query
      database_schema in
  (forall e, json_dumps_schema database_schema = Raise e -> run = Raise e)
  /\ (forall schema_str,
        json_dumps_schema database_schema = Ok schema_str ->
        let request :=
          request_of self sql_system 0%Q (sql_prompt schema_str query) in
        substring schema_str (req_prompt request)
        /\ substring query (req_prompt request)
        /\ (forall e, transport past request = Raise e -> run = Raise e)
        /\ (forall content,
              transport past request = Ok content -> run = Ok (strip content)))
  /\ (forall text, run = Ok text -> strip text = text).
Proof.
  intros run. subst run. unfold Provider_generate_sql.
  split; [|split].
  - by intros e ->.
  - intros schema_str ->. cbv beta iota zeta delta [and_then].
    rewrite req_prompt_request_of.
    split; [apply sql_prompt_embeds|]. split; [apply sql_prompt_embeds|].
    split; [by intros e -> | by intros content ->].
  - intros text.
    destruct (json_dumps_schema database_schema) as [s|e]; [|done].
    cbv beta iota zeta delta [and_then].
    destruct (transport past _) as [content|e]; [|done].
    intros [= <-]. apply strip_idem.
Qed.

Lemma provider_generate_sql_behaviour_witness :
  Provider_generate_sql echo_transport (fun _ => Raise api_error)
    (Gemini {| gemini_api_key := lit "key" |}) []
    (lit "What is the total amount?") sales_schema
  = Raise api_error.
Proof.
  apply (proj1 (provider_generate_sql_behaviour echo_transport
                  (fun _ => Raise api_error)
                  (Gemini {| gemini_api_key := lit "key" |}) []
                  (lit "What is the total amount?") sales_schema)).
  reflexivity.
Defined.

(** X16: [generate_response] of every variant.  When the context cannot
    be serialised it raises that exception, whatever the result and the
    model; otherwise it raises what its one request raises and returns
    the model's text trimmed: an answer it returns never has whitespace
    at its ends. *)
Theorem provider_generate_response_behaviour
    (transport : Transport) (json_dumps_context : Context -> Result str)
    (to_string : DataFrame -> str) (self : Provider) (past : list Event)
    (query : str) (sql_result : option DataFrame) (context : Context) :
  let run :=
    Provider_generate_response transport json_dumps_context to_string self
      past query sql_result context in
  (forall e, json_dumps_context context = Raise e -> run = Raise e)
  /\ (forall context_json,
        json_dumps_context context = Ok context_json ->
        let request :=
          request_of self response_system (3 # 10)%Q
            (response_prompt query (result_str_of to_string sql_result)
               context_json) in
        substring query (req_prompt request)
        /\ substring context_json (req_prompt request)
        /\ (forall e, transport past request = Raise e -> run = Raise e)
        /\ (forall content,
              transport past request = Ok content -> run = Ok (strip content)))
  /\ (forall text, run = Ok text -> strip text = text).
Proof.
  intros run. subst run. unfold Provider_generate_response.
  split; [|split].
  - by intros e ->.
  - intros context_json ->. cbv beta iota zeta delta [and_then].
    rewrite req_prompt_request_of.
    split; [|split; [|split; [by intros e -> | by intros content ->]]].
    + unfold response_prompt. apply substring_mid.
    + unfold response_prompt.
      rewrite (app_assoc _ query), (app_assoc _ (lit _)),
        (app_assoc _ (result_str_of _ _)), (app_assoc _ (lit _)).
      apply substring_mid.
  - intros text.
    destruct (json_dumps_context context) as [s|e]; [|done].
    cbv beta iota zeta delta [and_then].
    destruct (transport past _) as [content|e]; [|done].
    intros [= <-]. apply strip_idem.
Qed.

Lemma provider_generate_response_behaviour_witness :
  Provider_generate_response echo_transport (fun _ => Raise api_error)
    (fun _ => lit "Empty DataFrame")
    (Gemini {| gemini_api_key := lit "key" |}) []
    (lit "Who sold nothing?") (Some total) sales_context
  = Raise api_error.
Proof.
  apply (proj1 (provider_generate_response_behaviour echo_transport
                  (fun _ => Raise api_error) (fun _ => lit "Empty DataFrame")
                  (Gemini {| gemini_api_key := lit "key" |}) []
                  (lit "Who sold nothing?") (Some total) sales_context)).
  reflexivity.
Defined.

Lemma Provider_init_kind kind environ api_key p :
  Provider_init kind environ api_key = Ok p -> kind_of p = kind.
Proof.
  destruct kind; simpl;
    match goal with |- and_then ?r _ = _ -> _ => destruct r end;
    simpl; intros [= <-]; done.
Qed.

(** X17: the factory.  The provider name is compared without regard to
    case; [openai], [gemini] and [openrouter] lead to the constructor of
    that variant, with its credential rule; every other name raises
    [ValueError] with the name in its message, before any credential is
    looked at.  A provider the factory returns is of the variant named
    and holds a credential that is not empty. *)
Theorem create_dispatch (environ : Environ) (provider_name : str)
    (api_key : option str) :
  (lower provider_name = lit "openai" ->
   create environ provider_name api_key = Provider_init KOpenAI environ api_key)
  /\ (lower provider_name = lit "gemini" ->
      create environ provider_name api_key = Provider_init KGemini environ api_key)
  /\ (lower provider_name = lit "openrouter" ->
      create environ provider_name api_key
      = Provider_init KOpenRouter environ api_key)
  /\ (lower provider_name <> lit "openai" ->
      lower provider_name <> lit "gemini" ->
      lower provider_name <> lit "openrouter" ->
      create environ provider_name api_key
      = Raise (ValueError (lit "Unsupported LLM provider: " ++ provider_name)))
  /\ (forall p,
        create environ provider_name api_key = Ok p ->
        lower provider_name
        = match kind_of p with
          | KOpenAI => lit "openai"
          | KGemini => lit "gemini"
          | KOpenRouter => lit "openrouter"
          end
        /\ credential p <> []).
Proof.
  unfold create.
  split; [|split; [|split; [|split]]].
  - intros H. by rewrite decide_True.
  - intros H. rewrite decide_False by (rewrite H; discriminate).
    by rewrite decide_True.
  - intros H. rewrite !decide_False by (rewrite H; discriminate).
    by rewrite decide_True.
  - intros H1 H2 H3. by rewrite !decide_False.
  - intros p.
    repeat case_decide; try done; intros Hp;
      pose proof (Provider_init_kind _ _ _ _ Hp) as Hk; rewrite Hk;
      (split; [done|]);
      match type of Hp with Provider_init ?k _ _ = _ =>
        pose proof (Provider_init_cases k environ api_key) as Hc end;
      destruct (effective_key _ environ api_key) as [[|c k]|];
      try (destruct Hc as (msg & Hc); rewrite Hc in Hp; done);
      destruct Hc as (p' & Hc & Hcred); rewrite Hc in Hp;
      injection Hp as <-; by rewrite Hcred.
Qed.

Lemma create_dispatch_witness :
  create ∅ (lit "OpenAI") (Some (lit "sk-123"))
  = Provider_init KOpenAI ∅ (Some (lit "sk-123")).
Proof.
  apply (proj1 (create_dispatch ∅ (lit "OpenAI") (Some (lit "sk-123")))).
  reflexivity.
Defined.

(** ** The schema snapshot, on every store *)

Lemma describes_columns df cis :
  Forall2 (fun ci s => describes ci df s) cis (df_columns df) ->
  map ci_name cis = column_labels df
  /\ map ci_type cis = map (fun s => column_type_of (col_dtype s)) (df_columns df)
  /\ Forall (fun ci =>
               length (ci_sample_values ci) = min 3 (max 1 (nrows df))
               /\ Forall (fun v => notna v = true) (ci_sample_values ci)) cis
  /\ Forall2 (fun ci s => ci_sample_values ci ⊆+ col_values s) cis (df_columns df).
Proof.
  unfold column_labels.
  induction 1 as [|ci s cis ss (Hn & Ht & Hl & Hs) _ (IH1 & IH2 & IH3 & IH4)];
    [by repeat split; constructor|].
  simpl. rewrite Hn, Ht, IH1, IH2. split; [done|]. split; [done|].
  assert (Hsub : dropna (col_values s) ⊆+ col_values s)
    by (apply sublist_submseteq, sublist_filter).
  split; constructor; try done.
  - split; [done|]. apply Forall_forall. intros v Hv.
    pose proof (elem_of_submseteq _ _ _ Hv Hs) as Hin.
    unfold dropna in Hin. by apply list_elem_of_filter in Hin as [? _].
  - by etrans.
Qed.

(** X18: on a store whose display names are distinct and whose tables
    have distinct column labels and, in every column, at least
    [min(3, max(1, len(df)))] values that are not null, the snapshot is
    produced.  It has an entry for every registered name and for no
    other; the entry holds the storage identifier, the row count and,
    column by column in the order of the table, the label, the type
    inferred from the dtype, and [min(3, max(1, len(df)))] values (so at
    most 3), none of them null, taken from the column without taking any
    value more often than the column holds it. *)
Theorem get_database_schema_describes (database : ExcelDatabase) (g : Rng) :
  NoDup (dict_keys (sheets database)) ->
  Forall (fun item => samplable (data item.2)) (sheets database) ->
  exists schema g',
    _get_database_schema database g = (Ok schema, g')
    /\ (forall name, dict_get name (sheets database) = None ->
          dict_get name schema = None)
    /\ (forall name info,
          dict_get name (sheets database) = Some info ->
          exists ts,
            dict_get name schema = Some ts
            /\ table_name ts = clean_name info
            /\ row_count ts = nrows (data info)
            /\ map ci_name (ts_columns ts) = column_labels (data info)
            /\ map ci_type (ts_columns ts)
               = map (fun s => column_type_of (col_dtype s))
                   (df_columns (data info))
            /\ Forall (fun ci =>
                 length (ci_sample_values ci)
                 = min 3 (max 1 (nrows (data info)))
                 /\ Forall (fun v => notna v = true) (ci_sample_values ci))
                 (ts_columns ts)
            /\ Forall2 (fun ci s => ci_sample_values ci ⊆+ col_values s)
                 (ts_columns ts) (df_columns (data info))).
Proof.
  intros Hnd Hs.
  destruct (get_database_schema_ok database g Hnd Hs)
    as (schema & g' & Hrun & Hnone & Hsome).
  exists schema, g'. split; [done|]. split; [done|].
  intros name info Hget.
  destruct (Hsome name info Hget) as (ts & Hts & Htn & Hrc & Hcols).
  exists ts. split; [done|]. split; [done|]. split; [done|].
  by apply describes_columns.
Qed.

Lemma get_database_schema_describes_witness :
  exists schema g',
    _get_database_schema (store_of (lit "Sales") sales) [5; 7; 1] = (Ok schema, g')
    /\ (forall name,
          dict_get name (sheets (store_of (lit "Sales") sales)) = None ->
          dict_get name schema = None)
    /\ (forall name info,
          dict_get name (sheets (store_of (lit "Sales") sales)) = Some info ->
          exists ts,
            dict_get name schema = Some ts
            /\ table_name ts = clean_name info
            /\ row_count ts = nrows (data info)
            /\ map ci_name (ts_columns ts) = column_labels (data info)
            /\ map ci_type (ts_columns ts)
               = map (fun s => column_type_of (col_dtype s))
                   (df_columns (data info))
            /\ Forall (fun ci =>
                 length (ci_sample_values ci)
                 = min 3 (max 1 (nrows (data info)))
                 /\ Forall (fun v => notna v = true) (ci_sample_values ci))
                 (ts_columns ts)
            /\ Forall2 (fun ci s => ci_sample_values ci ⊆+ col_values s)
                 (ts_columns ts) (df_columns (data info))).
Proof.
  apply (get_database_schema_describes (store_of (lit "Sales") sales) [5; 7; 1]).
  - apply (bool_decide_unpack _). vm_compute. exact I.
  - unfold samplable. apply (bool_decide_unpack _). vm_compute. exact I.
Defined.

Lemma getitem_elem_of df col s : getitem df col = Ok s -> s ∈ df_columns df.
Proof.
  unfold getitem.
  destruct (filter _ (df_columns df)) as [|s' [|]] eqn:E; try done.
  intros [= <-].
  assert (Hin : s' ∈ filter (fun s => col_name s = col) (df_columns df))
    by (rewrite E; apply list_elem_of_here).
  by apply list_elem_of_filter in Hin as [_ ?].
Qed.

Lemma column_info_no_rows df col g :
  nrows df = 0 -> well_formed df ->
  is_ok (fst (column_info df col g)) = false.
Proof.
  intros Hn Hwf. unfold column_info, bind, lift.
  destruct (getitem df col) as [s|e] eqn:E; [|done].
  apply getitem_elem_of in E.
  pose proof (proj1 (Forall_forall _ _) Hwf s E) as Hlen. simpl in Hlen.
  rewrite Hn in Hlen. apply nil_length_inv in Hlen. rewrite Hlen, Hn.
  reflexivity.
Qed.

Lemma schema_loop_no_rows items acc g name info :
  (name, info) ∈ items ->
  nrows (data info) = 0 -> df_columns (data info) <> [] ->
  well_formed (data info) ->
  is_ok (fst (schema_loop items acc g)) = false.
Proof.
  intros Hin Hn Hc Hwf. revert acc g.
  induction items as [|[k i] items IH]; intros acc g;
    [by apply elem_of_nil in Hin|].
  simpl. unfold bind at 1.
  destruct (mapM (column_info (data i)) (column_labels (data i)) g)
    as [[cols|e] g1] eqn:E; [|done].
  apply elem_of_cons in Hin as [[= <- <-]|Hin]; [|by apply IH].
  exfalso. unfold column_labels in E.
  destruct (df_columns (data info)) as [|s ss]; [done|].
  simpl in E. unfold bind at 1 in E.
  pose proof (column_info_no_rows (data info) (col_name s) g Hn Hwf) as Hf.
  destruct (column_info (data info) (col_name s) g) as [[ci|e] g2]; [done|].
  discriminate.
Qed.

(** X19: one registered table with columns and no row is enough to make
    the snapshot raise, whatever else the store holds and whatever the
    generator draws; [query] then raises before the provider is asked
    (the trace is unchanged), so no question can be answered while such
    a table is loaded. *)
Theorem get_database_schema_no_rows (database : ExcelDatabase) (g : Rng)
    (name : str) (info : SheetInfo) :
  (name, info) ∈ sheets database ->
  nrows (data info) = 0 ->
  df_columns (data info) <> [] ->
  well_formed (data info) ->
  is_ok (fst (_get_database_schema database g)) = false
  /\ forall engine llm_provider repr_schema question events,
       let w := {| db := database; rng := g; trace := events |} in
       is_ok (fst (query engine llm_provider repr_schema question w)) = false
       /\ trace (snd (query engine llm_provider repr_schema question w)) = events.
Proof.
  intros Hin Hn Hc Hwf.
  pose proof (schema_loop_no_rows (sheets database) [] g name info Hin Hn Hc Hwf)
    as Hf.
  change (is_ok (fst (_get_database_schema database g)) = false) in Hf.
  split; [done|].
  intros engine llm_provider repr_schema question events w.
  rewrite query_cases. unfold query_outcome. subst w. cbn [db rng trace].
  destruct (_get_database_schema database g) as [[schema|e] g'];
    [simpl in Hf; discriminate Hf | by split].
Qed.

Lemma get_database_schema_no_rows_witness :
  is_ok (fst (_get_database_schema (store_of (lit "Sales") sales_no_rows) [])) = false.
Proof.
  apply (get_database_schema_no_rows (store_of (lit "Sales") sales_no_rows) []
           (lit "Sales")
           {| clean_name := lit "Sales"; columns := column_labels sales_no_rows;
              data := sales_no_rows |}).
  - apply list_elem_of_here.
  - reflexivity.
  - discriminate.
  - repeat constructor.
Defined.

(** ** Column types *)

Lemma contains_self p s : startswith s p = true -> contains p s = true.
Proof. intros H. destruct s; simpl; by rewrite H. Qed.

Lemma contains_spec p s : contains p s = true <-> substring p s.
Proof.
  split.
  - induction s as [|c s IH]; simpl; intros H.
    + apply orb_true_iff in H as [H|H]; [|done].
      apply startswith_inv in H as (t & H). by exists [], t.
    + apply orb_true_iff in H as [H|H].
      * apply startswith_inv in H as (t & H). by exists [], t.
      * destruct (IH H) as (pre & post & ->). by exists (c :: pre), post.
  - intros (pre & post & ->). apply contains_app, contains_self, startswith_app.
Qed.

(** X20: the type of a column is decided by what its dtype name
    contains, anywhere in the name and in lower case, in this order of
    precedence: INTEGER exactly when it contains [int], REAL exactly
    when it contains [float] and not [int], DATETIME exactly when it
    contains [datetime] and neither of the two, TEXT otherwise. *)
Theorem column_type_of_by_substring (dtype_str : str) :
  (column_type_of dtype_str = lit "INTEGER" <-> substring (lit "int") dtype_str)
  /\ (column_type_of dtype_str = lit "REAL"
      <-> ~ substring (lit "int") dtype_str
          /\ substring (lit "float") dtype_str)
  /\ (column_type_of dtype_str = lit "DATETIME"
      <-> ~ substring (lit "int") dtype_str
          /\ ~ substring (lit "float") dtype_str
          /\ substring (lit "datetime") dtype_str)
  /\ (column_type_of dtype_str = lit "TEXT"
      <-> ~ substring (lit "int") dtype_str
          /\ ~ substring (lit "float") dtype_str
          /\ ~ substring (lit "datetime") dtype_str).
Proof.
  rewrite <- !contains_spec. unfold column_type_of.
  destruct (contains (lit "int") dtype_str),
    (contains (lit "float") dtype_str),
    (contains (lit "datetime") dtype_str);
    repeat split; try done; try discriminate;
    try (intros H; exfalso; destruct H as (? & ?); try tauto;
         destruct H0; tauto);
    try (intros (? & ?); by exfalso);
    try (intros (? & ? & ?); by exfalso).
Qed.

(** ** Repeated sanitizing *)

Lemma clean_changes y :
  strip y = y -> _clean_sql_query y <> y ->
  length (_clean_sql_query y) < length y.
Proof.
  intros Hy Hne. apply clean_shrinks; [done|].
  destruct (startswith y fence) eqn:E1; [by left|].
  destruct (endswith y fence) eqn:E2; [by right|].
  destruct Hne. by apply clean_noop.
Qed.

Lemma clean_sql_query_len x : length (_clean_sql_query x) <= length x.
Proof.
  unfold _clean_sql_query.
  assert (H2 : forall s, length (if endswith s fence
                 then strip (drop_last 3 s) else s) <= length s).
  { intros s. destruct (endswith s fence); [|done].
    etrans; [apply strip_length|]. unfold drop_last. rewrite length_take. lia. }
  etrans; [apply H2|].
  pose proof (strip_length x).
  repeat match goal with |- context [if ?b then _ else _] => destruct b end;
    try done;
    (etrans; [apply strip_length|]; rewrite length_drop; lia).
Qed.

Lemma iter_clean_fixed n y :
  _clean_sql_query y = y -> Nat.iter n _clean_sql_query y = y.
Proof. intros H. induction n as [|n IH]; simpl; [done|]. by rewrite IH. Qed.

Lemma iter_clean_settles n y :
  strip y = y -> length y <= n ->
  _clean_sql_query (Nat.iter n _clean_sql_query y)
  = Nat.iter n _clean_sql_query y.
Proof.
  revert y. induction n as [|n IH]; intros y Hy Hlen.
  - destruct y; [reflexivity | simpl in Hlen; lia].
  - destruct (decide (_clean_sql_query y = y)) as [Hfix|Hne].
    + by rewrite iter_clean_fixed, Hfix.
    + rewrite Nat.iter_succ_r. apply IH; [apply clean_stripped|].
      pose proof (clean_changes y Hy Hne). lia.
Qed.

(** X21: sanitizing again and again comes to rest: after at most
    [len(x) + 1] passes the text is one that a further pass leaves as it
    is, and so neither begins nor ends with a fence marker. *)
Theorem clean_sql_query_settles (x : str) :
  let y := Nat.iter (S (length x)) _clean_sql_query x in
  _clean_sql_query y = y
  /\ startswith y fence = false
  /\ endswith y fence = false.
Proof.
  intros y.
  assert (Hy : _clean_sql_query y = y).
  { subst y. rewrite Nat.iter_succ_r.
    apply iter_clean_settles; [apply clean_stripped|].
    apply clean_sql_query_len. }
  split; [done|].
  assert (Hs : strip y = y) by (rewrite <- Hy; apply clean_stripped).
  destruct (startswith y fence) eqn:E1;
    [|destruct (endswith y fence) eqn:E2; [|done]].
  - pose proof (clean_shrinks y Hs (or_introl E1)) as Hl.
    rewrite Hy in Hl. lia.
  - pose proof (clean_shrinks y Hs (or_intror E2)) as Hl.
    rewrite Hy in Hl. lia.
Qed.
